(** * Raw disco capture on Linux: wgengine/magicsock/magicsock_linux.go

    A shallow embedding of the two classic-BPF filter programs, of the
    filter installer [setBPF], of the start-up sequence [listenRawDisco]
    with its loopback self-test, and of the steady-state loop
    [receiveDisco], followed by the properties established about them. *)

From Stdlib Require Import ZArith List Bool String Lia.
From Stdlib Require Import Init.Byte.
Import ListNotations.
Local Open Scope Z_scope.

(** ** Bytes, slices and big-endian decoding *)

Module Bytes.

Definition byte := Init.Byte.byte.

(** [uint32(b)] of a byte. *)
Definition Z_of_byte (b : byte) : Z := Z.of_N (Byte.to_N b).

(** [byte(v)] of an unsigned integer: the low 8 bits. *)
Definition byte_of_Z (z : Z) : byte :=
  match Byte.of_N (Z.to_N (z mod 256)) with
  | Some b => b
  | None => x00
  end.

Definition len (b : list byte) : Z := Z.of_nat (List.length b).

(** Go's [b[lo:hi]]; [None] is the run-time panic "slice bounds out of
    range". *)
Definition slice (b : list byte) (lo hi : Z) : option (list byte) :=
  if (0 <=? lo) && (lo <=? hi) && (hi <=? len b)
  then Some (firstn (Z.to_nat (hi - lo)) (skipn (Z.to_nat lo) b))
  else None.

(** [binary.BigEndian.Uint16]; [None] is the index panic on a slice
    shorter than two bytes. *)
Definition Uint16 (b : list byte) : option Z :=
  match b with
  | b0 :: b1 :: _ => Some (Z.lor (Z_of_byte b1) (Z.shiftl (Z_of_byte b0) 8))
  | _ => None
  end.

(** [binary.BigEndian.Uint32]. *)
Definition Uint32 (b : list byte) : option Z :=
  match b with
  | b0 :: b1 :: b2 :: b3 :: _ =>
      Some (Z.lor (Z.lor (Z.lor (Z_of_byte b3) (Z.shiftl (Z_of_byte b2) 8))
                         (Z.shiftl (Z_of_byte b1) 16))
                  (Z.shiftl (Z_of_byte b0) 24))
  | _ => None
  end.

(** [binary.BigEndian.PutUint16] and [PutUint32], as the byte lists
    they write. *)
Definition PutUint16 (v : Z) : list byte :=
  [byte_of_Z (Z.shiftr v 8); byte_of_Z v].

Definition PutUint32 (v : Z) : list byte :=
  [byte_of_Z (Z.shiftr v 24); byte_of_Z (Z.shiftr v 16);
   byte_of_Z (Z.shiftr v 8); byte_of_Z v].

Definition byte_eqb (a b : byte) : bool := Byte.eqb a b.

(** [bytes.Equal]. *)
Fixpoint Equal (a b : list byte) : bool :=
  match a, b with
  | [], [] => true
  | x :: a', y :: b' => byte_eqb x y && Equal a' b'
  | _, _ => false
  end.

End Bytes.
Import Bytes.

(** ** The classic BPF machine (golang.org/x/net/bpf)

    Only the instructions the two programs use are embedded.  The run
    function follows the library's virtual machine, which mirrors the
    kernel: a load that reaches past the end of the packet stops the
    program with verdict zero. *)

Module bpf.

Inductive JumpTest : Type :=
| JumpEqual | JumpNotEqual
| JumpGreaterThan | JumpLessThan
| JumpGreaterOrEqual | JumpLessOrEqual
| JumpBitsSet | JumpBitsNotSet.

Inductive Instruction : Type :=
| LoadAbsolute (Off : Z) (Size : Z)
| LoadIndirect (Off : Z) (Size : Z)
| LoadMemShift (Off : Z)
| JumpIf (Cond : JumpTest) (Val : Z) (SkipTrue SkipFalse : nat)
| RetConstant (Val : Z).

(** How a run ends.  [Returned pc v]: the return instruction at index
    [pc] gave [v].  [LoadFault pc]: the load at [pc] was out of the
    packet's bounds.  [FellOff]: the program counter left the program.
    [InvalidSize pc]: a load size other than 1, 2 or 4.  [OutOfFuel]
    belongs to the model only. *)
Inductive Outcome : Type :=
| Returned (pc : nat) (v : Z)
| LoadFault (pc : nat)
| FellOff
| InvalidSize (pc : nat)
| OutOfFuel.

(** The value [Run] hands back to the caller. *)
Definition verdict (o : Outcome) : option Z :=
  match o with
  | Returned _ v => Some v
  | LoadFault _ => Some 0
  | FellOff => Some 0
  | InvalidSize _ => None
  | OutOfFuel => None
  end.

Definition jumpTest (cond : JumpTest) (regA value : Z) : bool :=
  match cond with
  | JumpEqual => regA =? value
  | JumpNotEqual => negb (regA =? value)
  | JumpGreaterThan => regA >? value
  | JumpLessThan => regA <? value
  | JumpGreaterOrEqual => regA >=? value
  | JumpLessOrEqual => regA <=? value
  | JumpBitsSet => negb (Z.land regA value =? 0)
  | JumpBitsNotSet => Z.land regA value =? 0
  end.

Definition jumpIf (cond : JumpTest) (value : Z) (skipTrue skipFalse : nat)
           (regA : Z) : nat :=
  if jumpTest cond regA value then skipTrue else skipFalse.

Inductive Loaded : Type :=
| Value (v : Z)
| OutOfBounds
| BadSize.

(** [loadCommon]: bounds first, then the size switch. *)
Definition loadCommon (pkt : list byte) (offset size : Z) : Loaded :=
  match slice pkt offset (offset + size) with
  | None => OutOfBounds
  | Some s =>
      if size =? 1 then
        match s with b :: _ => Value (Z_of_byte b) | [] => BadSize end
      else if size =? 2 then
        match Uint16 s with Some v => Value v | None => BadSize end
      else if size =? 4 then
        match Uint32 s with Some v => Value v | None => BadSize end
      else BadSize
  end.

(** [loadMemShift]: four times the low nibble of the byte at [off]. *)
Definition loadMemShift (pkt : list byte) (off : Z) : Loaded :=
  match slice pkt off (off + 1) with
  | Some (b :: _) => Value (4 * Z.land (Z_of_byte b) 15)
  | _ => OutOfBounds
  end.

Fixpoint exec (fuel : nat) (prog : list Instruction) (pkt : list byte)
         (pc : nat) (regA regX : Z) : Outcome :=
  match fuel with
  | O => OutOfFuel
  | S fuel' =>
      match nth_error prog pc with
      | None => FellOff
      | Some (LoadAbsolute off size) =>
          match loadCommon pkt off size with
          | Value v => exec fuel' prog pkt (S pc) v regX
          | OutOfBounds => LoadFault pc
          | BadSize => InvalidSize pc
          end
      | Some (LoadIndirect off size) =>
          match loadCommon pkt (off + regX) size with
          | Value v => exec fuel' prog pkt (S pc) v regX
          | OutOfBounds => LoadFault pc
          | BadSize => InvalidSize pc
          end
      | Some (LoadMemShift off) =>
          match loadMemShift pkt off with
          | Value v => exec fuel' prog pkt (S pc) regA v
          | _ => LoadFault pc
          end
      | Some (JumpIf cond val st sf) =>
          exec fuel' prog pkt (S pc + jumpIf cond val st sf regA) regA regX
      | Some (RetConstant val) => Returned pc val
      end
  end.

(** [VM.Run]: start at instruction 0 with cleared registers.  One unit
    of fuel per instruction plus one is enough, since the program
    counter only grows. *)
Definition Run (prog : list Instruction) (pkt : list byte) : Outcome :=
  exec (S (List.length prog)) prog pkt 0 0 0.

(** Static shape of a program: every jump target is an instruction of
    the program and lies after the jump. *)
Definition target (pc skip : nat) : nat := (S pc + skip)%nat.

Definition jumpInBounds (n pc : nat) (ins : Instruction) : bool :=
  match ins with
  | JumpIf _ _ st sf =>
      (target pc st <? n)%nat && (target pc sf <? n)%nat
  | _ => true
  end.

Definition jumpForward (pc : nat) (ins : Instruction) : bool :=
  match ins with
  | JumpIf _ _ st sf => (pc <? target pc st)%nat && (pc <? target pc sf)%nat
  | _ => true
  end.

Fixpoint checkFrom (n pc : nat) (rest : list Instruction) : bool :=
  match rest with
  | [] => true
  | ins :: rest' =>
      jumpInBounds n pc ins && jumpForward pc ins && checkFrom n (S pc) rest'
  end.

Definition jumpsWellFormed (prog : list Instruction) : bool :=
  checkFrom (List.length prog) 0 prog.

Definition isLoad (ins : Instruction) : bool :=
  match ins with
  | LoadAbsolute _ _ | LoadIndirect _ _ | LoadMemShift _ => true
  | _ => false
  end.

End bpf.

(** ** The two filter programs *)

Definition udpHeaderSize : Z := 8.
Definition ipv6FragmentHeaderSize : Z := 8.

Definition uint32 (z : Z) : Z := z mod 2 ^ 32.

Section Filters.

(** The marker constants are declared elsewhere in the package; the
    programs are embedded over them. *)
Variables discoMagic1 discoMagic2 : Z.

Definition magicsockFilterV4 : list bpf.Instruction :=
  [ bpf.LoadAbsolute 6 2;
    bpf.JumpIf bpf.JumpBitsSet 0x2000 7 0;
    bpf.JumpIf bpf.JumpBitsSet 0x1fff 6 0;
    bpf.LoadMemShift 0;
    bpf.LoadIndirect udpHeaderSize 4;
    bpf.JumpIf bpf.JumpEqual discoMagic1 0 3;
    bpf.LoadIndirect (udpHeaderSize + 4) 2;
    bpf.JumpIf bpf.JumpEqual (uint32 discoMagic2) 0 1;
    bpf.RetConstant 0xFFFFFFFF;
    bpf.RetConstant 0x0 ].

Definition magicsockFilterV6 : list bpf.Instruction :=
  [ bpf.LoadAbsolute udpHeaderSize 4;
    bpf.JumpIf bpf.JumpEqual discoMagic1 0 3;
    bpf.LoadAbsolute (udpHeaderSize + 4) 2;
    bpf.JumpIf bpf.JumpEqual discoMagic2 0 1;
    bpf.RetConstant 0xFFFFFFFF;
    bpf.RetConstant 0x0 ].

End Filters.

Definition testDiscoPacket : list byte :=
  [ x54; x53; xf0; x9f; x92; xac ]
  ++ repeat x00 32
  ++ repeat x00 24.

(** ** Errors, addresses and the collaborators' types *)

Module net.

(** Go error values; a nil error is [None] of [option error]. *)
Inductive error : Type :=
| ErrClosed
| ErrDeadlineExceeded
| Errno (code : Z)
| New (msg : string)
| Errorf (format : string) (arg : string)
| Wrap (context : string) (cause : error).

(** [errors.Is(err, net.ErrClosed)]: walks the chain of wrapped
    errors. *)
Fixpoint IsErrClosed (e : error) : bool :=
  match e with
  | ErrClosed => true
  | Wrap _ cause => IsErrClosed cause
  | _ => false
  end.

Definition errors_Is_ErrClosed (err : option error) : bool :=
  match err with
  | Some e => IsErrClosed e
  | None => false
  end.

(** [*net.IPAddr], the address type a raw IP connection reports. *)
Record IPAddr : Type := { IP : list byte }.

End net.

Module netip.

Inductive Addr : Type :=
| AddrFrom4 (a : list byte)
| AddrFrom16 (a : list byte).

Definition AddrFromSlice (s : list byte) : option Addr :=
  if len s =? 4 then Some (AddrFrom4 s)
  else if len s =? 16 then Some (AddrFrom16 s)
  else None.

Definition Is4 (a : Addr) : bool :=
  match a with
  | AddrFrom4 _ => true
  | AddrFrom16 _ => false
  end.

Record AddrPort : Type := AddrPortFrom { Addr_ : Addr; Port_ : Z }.

End netip.

Module key.

Record NodePublic : Type := { k : list byte }.

(** The zero value [key.NodePublic{}]. *)
Definition zero : NodePublic := {| k := repeat x00 32 |}.

End key.

(** ** The world the code acts on *)

Inductive Sock : Type :=
| pc   (* the raw socket *)
| tc.  (* the throwaway UDP socket of the self-test *)

(** One result of [pc.ReadFrom(buf[:])]: the count, the contents of
    [buf] after the call, the source and the error, together with the
    ports the two regular sockets are bound to at that moment. *)
Record Arrival : Type := {
  n : Z;
  buf : list byte;
  src : net.IPAddr;
  err : option net.error;
  pconn4_Port : Z;
  pconn6_Port : Z
}.

Inductive Event : Type :=
| EvListenPacket (network addr : string)
| EvSetsockoptAttachFilter (Len : Z) (setErr : option net.error)
| EvClose (s : Sock)
| EvWriteTo (payload : list byte) (addr : string)
| EvSetReadDeadline (ms : option Z)
| EvGoReceiveDisco (isIPV6 : bool)
| EvLogf (format : string)
| EvDlogf (format : string) (port : Z)
| EvPort (isIPV6 : bool)
| EvHandleDiscoMessage (payload : list byte) (from : netip.AddrPort)
                       (sender : key.NodePublic).

Record World : Type := {
  incoming : list Arrival;
  metricRecvDiscoPacketIPv4 : Z;
  metricRecvDiscoPacketIPv6 : Z;
  events : list Event
}.

Definition set_incoming (l : list Arrival) (w : World) : World :=
  {| incoming := l;
     metricRecvDiscoPacketIPv4 := metricRecvDiscoPacketIPv4 w;
     metricRecvDiscoPacketIPv6 := metricRecvDiscoPacketIPv6 w;
     events := events w |}.

Definition add_events (l : list Event) (w : World) : World :=
  {| incoming := incoming w;
     metricRecvDiscoPacketIPv4 := metricRecvDiscoPacketIPv4 w;
     metricRecvDiscoPacketIPv6 := metricRecvDiscoPacketIPv6 w;
     events := events w ++ l |}.

(** [Metric.Add] on an int64 counter. *)
Definition int64_add (a b : Z) : Z :=
  (a + b + 2 ^ 63) mod 2 ^ 64 - 2 ^ 63.

Definition add_metric4 (d : Z) (w : World) : World :=
  {| incoming := incoming w;
     metricRecvDiscoPacketIPv4 := int64_add (metricRecvDiscoPacketIPv4 w) d;
     metricRecvDiscoPacketIPv6 := metricRecvDiscoPacketIPv6 w;
     events := events w |}.

Definition add_metric6 (d : Z) (w : World) : World :=
  {| incoming := incoming w;
     metricRecvDiscoPacketIPv4 := metricRecvDiscoPacketIPv4 w;
     metricRecvDiscoPacketIPv6 := int64_add (metricRecvDiscoPacketIPv6 w) d;
     events := events w |}.

(** The handler invocations recorded in a trace, in order. *)
Fixpoint dispatches (l : list Event)
  : list (list byte * netip.AddrPort * key.NodePublic) :=
  match l with
  | [] => []
  | EvHandleDiscoMessage p a s :: l' => (p, a, s) :: dispatches l'
  | _ :: l' => dispatches l'
  end.

Definition isGo (e : Event) : bool :=
  match e with EvGoReceiveDisco _ => true | _ => false end.

(** The raw socket as a trace leaves it: closed or not, and its read
    deadline ([None]: no deadline). *)
Fixpoint pcClosed (l : list Event) : bool :=
  match l with
  | [] => false
  | EvClose pc :: _ => true
  | _ :: l' => pcClosed l'
  end.

Fixpoint pcDeadline (cur : option Z) (l : list Event) : option Z :=
  match l with
  | [] => cur
  | EvSetReadDeadline d :: l' => pcDeadline d l'
  | _ :: l' => pcDeadline cur l'
  end.

(** ** A state monad with early exit

    [Stop R] is how a computation leaves its straight-line path: with a
    result of the enclosing function or loop body ([Done]), by a
    run-time panic, blocked in a read that nothing answers, or with the
    model's fuel spent. *)

Inductive Stop (R : Type) : Type :=
| Done (r : R)
| Panicked
| Blocked
| Exhausted.
Arguments Done {R} r.
Arguments Panicked {R}.
Arguments Blocked {R}.
Arguments Exhausted {R}.

Definition Act (R A : Type) : Type := World -> (A + Stop R) * World.

Definition ret {R A : Type} (a : A) : Act R A := fun w => (inl a, w).

Definition bind {R A B : Type} (m : Act R A) (f : A -> Act R B) : Act R B :=
  fun w =>
    match m w with
    | (inl a, w') => f a w'
    | (inr s, w') => (inr s, w')
    end.

Definition stop {R A : Type} (s : Stop R) : Act R A := fun w => (inr s, w).

Declare Scope act_scope.
Delimit Scope act_scope with act.
Notation "x <- m ;; k" := (bind m (fun x => k))
  (at level 61, m at next level, right associativity) : act_scope.
Notation "m ;; k" := (bind m (fun _ => k))
  (at level 61, right associativity) : act_scope.
Local Open Scope act_scope.

Definition emit {R : Type} (e : Event) : Act R unit :=
  fun w => (inl tt, add_events [e] w).

(** [defer f(); body]: [f] runs when the function leaves, however it
    leaves. *)
Definition defer {R A : Type} (f : World -> World) (body : Act R A) : Act R A :=
  fun w => let (r, w') := body w in (r, f w').

(** [pc.ReadFrom(buf[:])]: takes the next arrival. *)
Definition ReadFrom {R : Type} : Act R Arrival :=
  fun w =>
    match incoming w with
    | [] => (inr Blocked, w)
    | a :: rest => (inl a, set_incoming rest w)
    end.

Definition sliceM {R : Type} (b : list byte) (lo hi : Z) : Act R (list byte) :=
  match slice b lo hi with
  | Some s => ret s
  | None => stop Panicked
  end.

Definition Uint16M {R : Type} (b : list byte) : Act R Z :=
  match Uint16 b with
  | Some v => ret v
  | None => stop Panicked
  end.

Definition logf {R : Type} (format : string) : Act R unit :=
  emit (EvLogf format).

Definition dlogf {R : Type} (format : string) (port : Z) : Act R unit :=
  emit (EvDlogf format port).

Definition when {R : Type} (c : bool) (m : Act R unit) : Act R unit :=
  if c then m else ret tt.

(** ** receiveDisco *)

Inductive LoopCtl : Type :=
| Continue   (* [continue]: on to the next read *)
| Return.    (* [return]: the loop is left *)

(** The steps after the destination port is read and checked for zero:
    port lookup, the two port gates, source parsing, counter and
    dispatch (source lines 228-259). *)
Definition receiveDisco_accept (isIPV6 : bool) (a : Arrival) (dstPort : Z)
  : Act LoopCtl unit :=
  acceptPort <- (emit (EvPort isIPV6) ;;
                 ret (if isIPV6 then pconn6_Port a else pconn4_Port a)) ;;
  when (acceptPort =? 0)
       (dlogf "[v1] disco raw: dropping packet for port %d as acceptPort=0" dstPort ;;
        stop (Done Continue)) ;;
  when (negb (dstPort =? acceptPort))
       (dlogf "[v1] disco raw: dropping packet for port %d" dstPort ;;
        stop (Done Continue)) ;;
  match netip.AddrFromSlice (net.IP (src a)) with
  | None =>
      logf "[unexpected] PacketConn.ReadFrom returned not-an-IP %v in from" ;;
      stop (Done Continue)
  | Some srcIP =>
      b <- sliceM (buf a) 0 2 ;;
      srcPort <- Uint16M b ;;
      (if netip.Is4 srcIP
       then (fun w => (inl tt, add_metric4 1 w))
       else (fun w => (inl tt, add_metric6 1 w))) ;;
      payload <- sliceM (buf a) udpHeaderSize (n a) ;;
      emit (EvHandleDiscoMessage payload (netip.AddrPortFrom srcIP srcPort)
                                 key.zero)
  end.

(** One pass through the body of the [for] loop. *)
Definition receiveDisco_iter (isIPV6 : bool) : Act LoopCtl unit :=
  a <- ReadFrom ;;
  (if net.errors_Is_ErrClosed (err a) then stop (Done Return)
   else match err a with
        | Some _ => logf "disco raw reader failed: %v" ;; stop (Done Return)
        | None => ret tt
        end) ;;
  when (n a <? udpHeaderSize) (stop (Done Continue)) ;;
  b <- sliceM (buf a) 2 4 ;;
  dstPort <- Uint16M b ;;
  when (dstPort =? 0)
       (logf "[unexpected] disco raw: received packet for port 0") ;;
  acceptPort <- (emit (EvPort isIPV6) ;;
                 ret (if isIPV6 then pconn6_Port a else pconn4_Port a)) ;;
  when (acceptPort =? 0)
       (dlogf "[v1] disco raw: dropping packet for port %d as acceptPort=0" dstPort ;;
        stop (Done Continue)) ;;
  when (negb (dstPort =? acceptPort))
       (dlogf "[v1] disco raw: dropping packet for port %d" dstPort ;;
        stop (Done Continue)) ;;
  match netip.AddrFromSlice (net.IP (src a)) with
  | None =>
      logf "[unexpected] PacketConn.ReadFrom returned not-an-IP %v in from" ;;
      stop (Done Continue)
  | Some srcIP =>
      b <- sliceM (buf a) 0 2 ;;
      srcPort <- Uint16M b ;;
      (if netip.Is4 srcIP
       then (fun w => (inl tt, add_metric4 1 w))
       else (fun w => (inl tt, add_metric6 1 w))) ;;
      payload <- sliceM (buf a) udpHeaderSize (n a) ;;
      emit (EvHandleDiscoMessage payload (netip.AddrPortFrom srcIP srcPort)
                                 key.zero)
  end.

(** How one pass ends, as the loop sees it.  A pass uses no fuel, so
    [Exhausted] does not arise from it; it is filed with the panics. *)
Inductive IterEnd : Type :=
| NextIteration   (* fell through the body or hit [continue] *)
| LoopExit        (* [return] *)
| IterPanic
| IterBlocked.

Definition iterEnd (r : unit + Stop LoopCtl) : IterEnd :=
  match r with
  | inl _ => NextIteration
  | inr (Done Continue) => NextIteration
  | inr (Done Return) => LoopExit
  | inr Panicked => IterPanic
  | inr Blocked => IterBlocked
  | inr Exhausted => IterPanic
  end.

Fixpoint receiveDisco_loop (fuel : nat) (isIPV6 : bool) (w : World)
  : Stop unit * World :=
  match fuel with
  | O => (Exhausted, w)
  | S fuel' =>
      let (r, w') := receiveDisco_iter isIPV6 w in
      match iterEnd r with
      | NextIteration => receiveDisco_loop fuel' isIPV6 w'
      | LoopExit => (Done tt, w')
      | IterPanic => (Panicked, w')
      | IterBlocked => (Blocked, w')
      end
  end.

(** Every pass takes one arrival, so one unit of fuel per pending
    arrival, and one for the pass that finds none, is enough. *)
Definition receiveDisco (isIPV6 : bool) (w : World) : Stop unit * World :=
  receiveDisco_loop (S (List.length (incoming w))) isIPV6 w.

(** ** setBPF and listenRawDisco *)

(** What the operating system and the libraries answer during set-up:
    for each call that can fail, its error ([None]: it succeeds). *)
Record Env : Type := {
  debugDisableRawDisco : bool;
  UseSocketMark : bool;
  AssembleErr : option net.error;
  ListenPacketRawErr : option net.error;
  SyscallConnErr : option net.error;
  ControlErr : option net.error;
  SetsockoptErr : option net.error;
  ListenPacketUDPErr : option net.error;
  WriteToErr : option net.error
}.

(** [bpf.Assemble]: one raw instruction per instruction. *)
Inductive RawInstruction : Type :=
| Raw (ins : bpf.Instruction).

Definition Assemble (env : Env) (prog : list bpf.Instruction)
  : list RawInstruction * option net.error :=
  match AssembleErr env with
  | Some e => ([], Some e)
  | None => (map Raw prog, None)
  end.

Definition uint16 (z : Z) : Z := z mod 2 ^ 16.

(** [setBPF]: the value is the error it returns.  [setErr] is assigned
    inside the [Control] callback, which runs when [Control] itself does
    not fail. *)
Definition setBPF {R : Type} (env : Env) (filter : list RawInstruction)
  : Act R (option net.error) :=
  let err := SyscallConnErr env in
  match err with
  | Some _ => ret err
  | None =>
      match filter with
      | [] => stop Panicked   (* [&filter[0]] *)
      | _ :: _ =>
          let Len := uint16 (Z.of_nat (List.length filter)) in
          let err := ControlErr env in
          setErr <- (match err with
                     | Some _ => ret None
                     | None =>
                         emit (EvSetsockoptAttachFilter Len (SetsockoptErr env)) ;;
                         ret (SetsockoptErr env)
                     end) ;;
          match err with
          | Some _ => ret err
          | None =>
              match setErr with
              | Some _ => ret err
              | None => ret None
              end
          end
      end
  end.

(** The read loop of the self-test (source lines 188-201). *)
Fixpoint selfTest_loop (fuel : nat) : Act net.error unit :=
  match fuel with
  | O => stop Exhausted
  | S fuel' =>
      a <- ReadFrom ;;
      match err a with
      | Some e =>
          emit (EvClose pc) ;;
          stop (Done (net.Wrap "reading during raw disco self-test" e))
      | None =>
          if n a <? udpHeaderSize then selfTest_loop fuel'
          else
            p <- sliceM (buf a) udpHeaderSize (n a) ;;
            if negb (Equal p testDiscoPacket) then selfTest_loop fuel'
            else ret tt
      end
  end.

Definition selfTest : Act net.error unit :=
  fun w => selfTest_loop (S (List.length (incoming w))) w.

Definition JoinHostPort (host port : string) : string :=
  (host ++ ":" ++ port)%string.

Section ListenRawDisco.

Variables discoMagic1 discoMagic2 : Z.

(** [listenRawDisco]: [Done e] is [return nil, e]; a value is the
    returned handle. *)
Definition listenRawDisco (env : Env) (family : string)
  : Act net.error Sock :=
  when (debugDisableRawDisco env)
       (stop (Done (net.New "raw disco listening disabled by debug flag"))) ;;
  when (negb (UseSocketMark env))
       (stop (Done (net.New "raw disco listening disabled, SO_MARK unavailable"))) ;;
  cfg <- (if String.eqb family "ip4"
          then ret ("ip4:17", "0.0.0.0", "127.0.0.1:1",
                    magicsockFilterV4 discoMagic1 discoMagic2)
          else if String.eqb family "ip6"
          then ret ("ip6:17", "::", "[::1]:1",
                    magicsockFilterV6 discoMagic1 discoMagic2)
          else stop (Done (net.Errorf "unsupported address family %q" family)))%string ;;
  let '(network, addr, testAddr, prog) := cfg in
  let (asm, err) := Assemble env prog in
  match err with
  | Some e => stop (Done (net.Wrap "assembling filter" e))
  | None =>
  match ListenPacketRawErr env with
  | Some e => stop (Done (net.Wrap "creating packet conn" e))
  | None =>
  emit (EvListenPacket network addr) ;;
  err <- setBPF env asm ;;
  match err with
  | Some e =>
      emit (EvClose pc) ;;
      stop (Done (net.Wrap "installing BPF filter" e))
  | None =>
  match ListenPacketUDPErr env with
  | Some e =>
      emit (EvClose pc) ;;
      stop (Done (net.Wrap "creating disco test socket" e))
  | None =>
  emit (EvListenPacket "udp" (JoinHostPort addr "0")) ;;
  defer (add_events [EvClose tc])
    (match WriteToErr env with
     | Some e =>
         emit (EvClose pc) ;;
         stop (Done (net.Wrap "writing disco test packet" e))
     | None =>
         emit (EvWriteTo testDiscoPacket testAddr) ;;
         emit (EvSetReadDeadline (Some 100)) ;;
         selfTest ;;
         emit (EvSetReadDeadline None) ;;
         emit (EvGoReceiveDisco (String.eqb family "ip6")) ;;
         ret pc
     end)
  end end end end.

End ListenRawDisco.

(** ** Vocabulary of the properties *)

(** The marker as the self-test packet carries it: its first four bytes
    and its next two, read big-endian. *)
Definition testMagic1 : Z := 0x5453f09f.
Definition testMagic2 : Z := 0x92ac.

(** Bytes 6-7 of the packet as one big-endian word (flags and fragment
    offset of an IPv4 header). *)
Definition fragField (pkt : list byte) : option Z :=
  match slice pkt 6 8 with
  | Some s => Uint16 s
  | None => None
  end.

Definition moreFragments (v : Z) : bool := negb (Z.land v 0x2000 =? 0).
Definition fragmentOffset (v : Z) : Z := Z.land v 0x1fff.

Definition fragmented (pkt : list byte) : bool :=
  match fragField pkt with
  | Some v => moreFragments v || negb (fragmentOffset v =? 0)
  | None => false
  end.

(** The IPv4 header length in bytes: four times the low nibble of
    byte 0. *)
Definition ipHeaderLength (pkt : list byte) : option Z :=
  match pkt with
  | b :: _ => Some (4 * Z.land (Z_of_byte b) 15)
  | [] => None
  end.

(** Both marker segments are in the packet at [off]: four bytes equal to
    the first magic value, then two equal to the second. *)
Definition markerAt (magic1 magic2 : Z) (pkt : list byte) (off : Z) : Prop :=
  slice pkt off (off + 4) = Some (PutUint32 magic1) /\
  slice pkt (off + 4) (off + 6) = Some (PutUint16 magic2).

Definition markerAtV4 (magic1 magic2 : Z) (pkt : list byte) : Prop :=
  exists hl, ipHeaderLength pkt = Some hl /\
             markerAt magic1 magic2 pkt (hl + 8).

(** A run ends at a return instruction of the program. *)
Definition endsAtReturn (prog : list bpf.Instruction) (o : bpf.Outcome) : Prop :=
  exists i v, o = bpf.Returned i v /\
              nth_error prog i = Some (bpf.RetConstant v).

(** A run ends at a load that reached past the packet. *)
Definition endsAtLoadFault (prog : list bpf.Instruction) (o : bpf.Outcome) : Prop :=
  exists i ins, o = bpf.LoadFault i /\ nth_error prog i = Some ins /\
                bpf.isLoad ins = true.

(** Every conditional jump of the program lands inside the program and
    after itself. *)
Definition jumpsInBoundsForward (prog : list bpf.Instruction) : Prop :=
  forall i cond val st sf,
    nth_error prog i = Some (bpf.JumpIf cond val st sf) ->
    (i < bpf.target i st < List.length prog)%nat /\
    (i < bpf.target i sf < List.length prog)%nat.

(** A 16-bit big-endian field of the read buffer. *)
Definition portAt (b : list byte) (off : Z) : option Z :=
  match slice b off (off + 2) with
  | Some s => Uint16 s
  | None => None
  end.

Definition acceptPortOf (isIPV6 : bool) (a : Arrival) : Z :=
  if isIPV6 then pconn6_Port a else pconn4_Port a.

(** A read as [ReadFrom] on the 1500-byte buffer can return it. *)
Definition wellFormedRead (a : Arrival) : Prop :=
  0 <= n a <= 1500 /\ len (buf a) = 1500.

(** The reads the self-test passes over: shorter than a UDP header, or
    with bytes after the header that are not the test packet. *)
Definition skippedRead (a : Arrival) : Prop :=
  err a = None /\
  (n a < 8 \/
   exists p, slice (buf a) 8 (n a) = Some p /\ p <> testDiscoPacket).

(** The read the self-test waits for: its bytes after the 8-byte UDP
    header, up to the count read, are exactly the test packet. *)
Definition matchingRead (a : Arrival) : Prop :=
  err a = None /\ slice (buf a) 8 (n a) = Some testDiscoPacket.

(** Every set-up step before the self-test read succeeds.  The result
    of the filter-attaching setsockopt is left open. *)
Definition reachesSelfTest (env : Env) (family : string) : Prop :=
  debugDisableRawDisco env = false /\
  UseSocketMark env = true /\
  (family = "ip4"%string \/ family = "ip6"%string) /\
  AssembleErr env = None /\
  ListenPacketRawErr env = None /\
  SyscallConnErr env = None /\
  ControlErr env = None /\
  ListenPacketUDPErr env = None /\
  WriteToErr env = None.

Definition isIP6 (family : string) : bool := String.eqb family "ip6".

(** The trace of the set-up steps up to the first self-test read. *)
Definition setupTrace (env : Env) (family : string) : list Event :=
  [ EvListenPacket (if isIP6 family then "ip6:17" else "ip4:17")
                   (if isIP6 family then "::" else "0.0.0.0");
    EvSetsockoptAttachFilter (if isIP6 family then 6 else 10)
                             (SetsockoptErr env);
    EvListenPacket "udp" (if isIP6 family then ":::0" else "0.0.0.0:0");
    EvWriteTo testDiscoPacket
              (if isIP6 family then "[::1]:1" else "127.0.0.1:1");
    EvSetReadDeadline (Some 100) ]%string.

(** A computation that never calls the handler, from any world and
    however it ends. *)
Definition neverDispatches {R A : Type} (m : Act R A) : Prop :=
  forall w, dispatches (events (snd (m w))) = dispatches (events w).

(** A computation that takes no arrival. *)
Definition keepsIncoming {R A : Type} (m : Act R A) : Prop :=
  forall w, incoming (snd (m w)) = incoming w.

(** ** Vocabulary for set-up as a whole and for the loop as a whole *)

(** Which socket an event opens: the raw one for a raw network, the test
    one for "udp". *)
Definition opens (e : Event) : option Sock :=
  match e with
  | EvListenPacket network _ =>
      Some (if String.eqb network "udp" then tc else pc)
  | _ => None
  end.

Definition pcOpened (l : list Event) : bool :=
  existsb (fun e => match opens e with Some pc => true | _ => false end) l.

Definition tcOpened (l : list Event) : bool :=
  existsb (fun e => match opens e with Some tc => true | _ => false end) l.

Definition tcClosed (l : list Event) : bool :=
  existsb (fun e => match e with EvClose tc => true | _ => false end) l.

Definition attachAttempted (l : list Event) : bool :=
  existsb (fun e => match e with
                    | EvSetsockoptAttachFilter _ _ => true
                    | _ => false
                    end) l.

(** What a trace of a failed set-up must satisfy: every socket it
    opened it also closed, and it started no receive loop. *)
Definition releasedOnFailure (l : list Event) : Prop :=
  (pcOpened l = true -> pcClosed l = true) /\
  (tcOpened l = true -> tcClosed l = true) /\
  existsb isGo l = false.

(** What a trace of a successful set-up satisfies: the raw socket is
    open, the test socket is closed again, the read deadline is cleared
    and the receive loop was started once. *)
Definition startedOnSuccess (l : list Event) : Prop :=
  pcOpened l = true /\ pcClosed l = false /\
  tcOpened l = true /\ tcClosed l = true /\
  pcDeadline None l = None /\
  List.length (filter isGo l) = 1%nat.

(** A set-up that fails before any socket is opened. *)
Definition failsEarly (env : Env) (family : string) : Prop :=
  debugDisableRawDisco env = true \/
  UseSocketMark env = false \/
  (family <> "ip4"%string /\ family <> "ip6"%string) \/
  AssembleErr env <> None \/
  ListenPacketRawErr env <> None.

(** Flags and family let set-up open the raw socket. *)
Definition opensRawSocket (env : Env) (family : string) : Prop :=
  debugDisableRawDisco env = false /\
  UseSocketMark env = true /\
  (family = "ip4"%string \/ family = "ip6"%string) /\
  AssembleErr env = None /\
  ListenPacketRawErr env = None.

(** The error [setBPF] hands back: that of [SyscallConn], else that of
    [Control]. *)
Definition installError (env : Env) : option net.error :=
  match SyscallConnErr env with
  | Some e => Some e
  | None => ControlErr env
  end.

Definition olist {A : Type} (o : option A) : list A :=
  match o with
  | Some x => [x]
  | None => []
  end.

(** The handler call a successfully read packet leads to, if any: the
    count is at least 8, the family's port is bound and is the
    packet's destination port, and the source is an IP address. *)
Definition accepted (isIPV6 : bool) (a : Arrival)
  : option (list byte * netip.AddrPort * key.NodePublic) :=
  if n a <? 8 then None
  else
    match portAt (buf a) 2, portAt (buf a) 0, slice (buf a) 8 (n a),
          netip.AddrFromSlice (net.IP (src a)) with
    | Some dstPort, Some srcPort, Some payload, Some srcIP =>
        if (acceptPortOf isIPV6 a =? 0)
           || negb (dstPort =? acceptPortOf isIPV6 a)
        then None
        else Some (payload, netip.AddrPortFrom srcIP srcPort, key.zero)
    | _, _, _, _ => None
    end.

Definition isV4Dispatch (d : list byte * netip.AddrPort * key.NodePublic)
  : bool :=
  netip.Is4 (netip.Addr_ (snd (fst d))).

(** The reads up to the first one that fails, and what is left after
    that one. *)
Fixpoint readsBeforeError (l : list Arrival) : list Arrival :=
  match l with
  | [] => []
  | a :: l' =>
      match err a with
      | None => a :: readsBeforeError l'
      | Some _ => []
      end
  end.

Fixpoint readsAfterError (l : list Arrival) : option (list Arrival) :=
  match l with
  | [] => None
  | a :: l' =>
      match err a with
      | None => readsAfterError l'
      | Some _ => Some l'
      end
  end.

Definition expectedDispatches (isIPV6 : bool) (l : list Arrival)
  : list (list byte * netip.AddrPort * key.NodePublic) :=
  flat_map (fun a => olist (accepted isIPV6 a)) (readsBeforeError l).

(** [k] increments of an int64 counter. *)
Definition bump (k : nat) (m : Z) : Z :=
  Nat.iter k (fun x => int64_add x 1) m.

Definition countV4 (l : list (list byte * netip.AddrPort * key.NodePublic))
  : nat :=
  List.length (filter isV4Dispatch l).

Definition countV6 (l : list (list byte * netip.AddrPort * key.NodePublic))
  : nat :=
  List.length (filter (fun d => negb (isV4Dispatch d)) l).

(** Two reads that differ at most in the buffer bytes from the count
    on. *)
Definition sameUpToCount (a1 a2 : Arrival) : Prop :=
  n a1 = n a2 /\ src a1 = src a2 /\ err a1 = err a2 /\
  pconn4_Port a1 = pconn4_Port a2 /\ pconn6_Port a1 = pconn6_Port a2 /\
  firstn (Z.to_nat (n a1)) (buf a1) = firstn (Z.to_nat (n a2)) (buf a2).

(** ** Sample inputs *)

(** A UDP header: source port 5000, destination port 4000, length 70,
    no checksum. *)
Definition sampleUDPHeader : list byte :=
  [ x13; x88; x0f; xa0; x00; x46; x00; x00 ].

(** A 20-byte IPv4 header, protocol 17, loopback to loopback, with the
    flags and fragment-offset word given. *)
Definition sampleIPv4Header (flags_hi flags_lo : byte) : list byte :=
  [ x45; x00; x00; x5a; x00; x00; flags_hi; flags_lo;
    x40; x11; x00; x00; x7f; x00; x00; x01;
    x7f; x00; x00; x01 ].

(** The test packet as the IPv6 filter sees it, and as the IPv4 filter
    sees it (don't-fragment set, not a fragment). *)
Definition sampleV6Packet : list byte := sampleUDPHeader ++ testDiscoPacket.
Definition sampleV4Packet : list byte :=
  sampleIPv4Header x40 x00 ++ sampleV6Packet.

(** The same packet as the first fragment of a fragmented datagram
    (more-fragments set). *)
Definition sampleV4Fragment : list byte :=
  sampleIPv4Header x20 x00 ++ sampleV6Packet.

(** A UDP datagram with a two-byte payload. *)
Definition sampleShortDatagram : list byte := sampleUDPHeader ++ [ xaa; xbb ].

(** The 1500-byte read buffer holding [data] at its front. *)
Definition bufferWith (data : list byte) : list byte :=
  data ++ repeat x00 (1500 - List.length data).

Definition loopback4 : net.IPAddr := {| net.IP := [ x7f; x00; x00; x01 ] |}.

(** A successful read of [data] from 127.0.0.1 while the regular
    sockets are bound to [port4] and [port6]. *)
Definition arrivalOf (data : list byte) (port4 port6 : Z) : Arrival :=
  {| n := len data; buf := bufferWith data; src := loopback4; err := None;
     pconn4_Port := port4; pconn6_Port := port6 |}.

(** A read that fails with [e]. *)
Definition failedRead (e : net.error) : Arrival :=
  {| n := 0; buf := bufferWith []; src := loopback4; err := Some e;
     pconn4_Port := 4000; pconn6_Port := 4000 |}.

(** A fresh world with the given reads pending. *)
Definition worldWith (l : list Arrival) : World :=
  {| incoming := l; metricRecvDiscoPacketIPv4 := 0;
     metricRecvDiscoPacketIPv6 := 0; events := [] |}.

(** An environment in which every set-up call succeeds, and one in which
    only the filter-attaching setsockopt is refused (EPERM). *)
Definition envOK : Env :=
  {| debugDisableRawDisco := false; UseSocketMark := true;
     AssembleErr := None; ListenPacketRawErr := None;
     SyscallConnErr := None; ControlErr := None; SetsockoptErr := None;
     ListenPacketUDPErr := None; WriteToErr := None |}.

Definition envSetsockoptRefused : Env :=
  {| debugDisableRawDisco := false; UseSocketMark := true;
     AssembleErr := None; ListenPacketRawErr := None;
     SyscallConnErr := None; ControlErr := None;
     SetsockoptErr := Some (net.Errno 1);
     ListenPacketUDPErr := None; WriteToErr := None |}.

(** The packet of the specification's scenario, read while port 4000
    is bound for IPv4, and the same packet addressed to port 0. *)
Definition sampleArrival : Arrival := arrivalOf sampleShortDatagram 4000 0.

Definition samplePortZeroArrival : Arrival :=
  arrivalOf [ x13; x88; x00; x00; x00; x0a; x00; x00; xaa; xbb ] 4000 0.

Definition portZeroLog : Event :=
  EvLogf "[unexpected] disco raw: received packet for port 0".

(** The test packet as the raw socket delivers it, and a read that
    runs into the deadline. *)
Definition testPacketArrival : Arrival := arrivalOf sampleV6Packet 4000 0.
Definition timedOutRead : Arrival := failedRead net.ErrDeadlineExceeded.




(** Environments in which one set-up call fails. *)
Definition envDisabled : Env :=
  {| debugDisableRawDisco := true; UseSocketMark := true;
     AssembleErr := None; ListenPacketRawErr := None;
     SyscallConnErr := None; ControlErr := None; SetsockoptErr := None;
     ListenPacketUDPErr := None; WriteToErr := None |}.

Definition envControlFails : Env :=
  {| debugDisableRawDisco := false; UseSocketMark := true;
     AssembleErr := None; ListenPacketRawErr := None;
     SyscallConnErr := None; ControlErr := Some (net.Errno 9);
     SetsockoptErr := None;
     ListenPacketUDPErr := None; WriteToErr := None |}.

Definition envTestSocketFails : Env :=
  {| debugDisableRawDisco := false; UseSocketMark := true;
     AssembleErr := None; ListenPacketRawErr := None;
     SyscallConnErr := None; ControlErr := None; SetsockoptErr := None;
     ListenPacketUDPErr := Some (net.Errno 24); WriteToErr := None |}.

Definition envWriteFails : Env :=
  {| debugDisableRawDisco := false; UseSocketMark := true;
     AssembleErr := None; ListenPacketRawErr := None;
     SyscallConnErr := None; ControlErr := None; SetsockoptErr := None;
     ListenPacketUDPErr := None; WriteToErr := Some (net.Errno 101) |}.

(** A packet for a port other than the bound one, and a packet whose
    source the socket reports with six bytes. *)
Definition sampleForeignArrival : Arrival := arrivalOf sampleShortDatagram 4001 0.

Definition sampleOddSourceArrival : Arrival :=
  {| n := len sampleShortDatagram; buf := bufferWith sampleShortDatagram;
     src := {| net.IP := [ x7f; x00; x00; x01; x00; x00 ] |}; err := None;
     pconn4_Port := 4000; pconn6_Port := 0 |}.

(** The scenario's packet in a buffer that still holds older bytes
    behind it. *)
Definition sampleStaleArrival : Arrival :=
  {| n := len sampleShortDatagram;
     buf := sampleShortDatagram ++ repeat xff 1490;
     src := loopback4; err := None;
     pconn4_Port := 4000; pconn6_Port := 0 |}.

(** A read that fails because the socket was closed, as the net package
    wraps it. *)
Definition closedRead : Arrival :=
  failedRead (net.Wrap "read ip4 0.0.0.0" net.ErrClosed).

(** ** Bytes: ranges and round trips *)

Lemma Z_of_byte_range (b : byte) : 0 <= Z_of_byte b < 256.
Proof.
  unfold Z_of_byte. pose proof (Byte.to_N_bounded b). lia.
Qed.

Lemma byte_of_Z_of_byte (b : byte) : byte_of_Z (Z_of_byte b) = b.
Proof.
  unfold byte_of_Z. pose proof (Z_of_byte_range b) as Hr.
  rewrite Z.mod_small by lia.
  unfold Z_of_byte. rewrite N2Z.id, Byte.of_to_N. reflexivity.
Qed.

Lemma Z_of_byte_of_Z (z : Z) : Z_of_byte (byte_of_Z z) = z mod 256.
Proof.
  unfold byte_of_Z, Z_of_byte.
  pose proof (Z.mod_pos_bound z 256 ltac:(lia)) as Hr.
  destruct (Byte.of_N (Z.to_N (z mod 256))) as [b|] eqn:E.
  - apply Byte.to_of_N in E. rewrite E. lia.
  - apply Byte.of_N_None_iff in E. lia.
Qed.

Lemma lor_shiftl_add (lo hi k : Z) :
  0 <= k -> 0 <= lo < 2 ^ k -> Z.lor lo (Z.shiftl hi k) = lo + hi * 2 ^ k.
Proof.
  intros Hk Hlo.
  rewrite <- (Z.shiftl_mul_pow2 hi k) by assumption.
  rewrite <- Z.add_lor_land.
  assert (Z.land lo (Z.shiftl hi k) = 0) as ->; [|lia].
  apply Z.bits_inj'. intros i Hi.
  rewrite Z.land_spec, Z.bits_0.
  destruct (Z.lt_ge_cases i k) as [Hlt|Hge].
  - rewrite (Z.shiftl_spec_low hi k i Hlt). apply andb_false_r.
  - rewrite <- (Z.mod_small lo (2 ^ k)) by assumption.
    rewrite Z.mod_pow2_bits_high by lia. reflexivity.
Qed.

Lemma Uint16_value (b0 b1 : byte) (rest : list byte) :
  Uint16 (b0 :: b1 :: rest) = Some (Z_of_byte b0 * 256 + Z_of_byte b1).
Proof.
  unfold Uint16. pose proof (Z_of_byte_range b1).
  rewrite lor_shiftl_add by lia. f_equal. lia.
Qed.

Lemma Uint32_value (b0 b1 b2 b3 : byte) (rest : list byte) :
  Uint32 (b0 :: b1 :: b2 :: b3 :: rest)
  = Some (((Z_of_byte b0 * 256 + Z_of_byte b1) * 256 + Z_of_byte b2) * 256
          + Z_of_byte b3).
Proof.
  unfold Uint32.
  pose proof (Z_of_byte_range b0). pose proof (Z_of_byte_range b1).
  pose proof (Z_of_byte_range b2). pose proof (Z_of_byte_range b3).
  rewrite (lor_shiftl_add (Z_of_byte b3)) by lia.
  rewrite (lor_shiftl_add _ (Z_of_byte b1)) by lia.
  rewrite lor_shiftl_add by lia.
  f_equal. lia.
Qed.

Lemma PutUint16_Uint16 (b0 b1 : byte) (v : Z) :
  Uint16 [b0; b1] = Some v -> PutUint16 v = [b0; b1].
Proof.
  rewrite Uint16_value. intros [= <-].
  pose proof (Z_of_byte_range b0). pose proof (Z_of_byte_range b1).
  unfold PutUint16. rewrite Z.shiftr_div_pow2 by lia.
  change (2 ^ 8) with 256.
  replace ((Z_of_byte b0 * 256 + Z_of_byte b1) / 256) with (Z_of_byte b0)
    by (apply Z.div_unique with (r := Z_of_byte b1); lia).
  rewrite byte_of_Z_of_byte. f_equal. f_equal.
  rewrite <- (byte_of_Z_of_byte b1) at 2.
  unfold byte_of_Z.
  rewrite Z.add_comm, Z.mod_add by lia. reflexivity.
Qed.

Lemma Uint16_PutUint16 (v : Z) :
  0 <= v < 2 ^ 16 -> Uint16 (PutUint16 v) = Some v.
Proof.
  intros Hv. unfold PutUint16. rewrite Uint16_value, !Z_of_byte_of_Z.
  rewrite Z.shiftr_div_pow2 by lia. change (2 ^ 8) with 256.
  f_equal.
  assert (v / 256 < 256) by (apply Z.div_lt_upper_bound; lia).
  assert (0 <= v / 256) by (apply Z.div_pos; lia).
  rewrite (Z.mod_small (v / 256)) by lia.
  pose proof (Z.div_mod v 256 ltac:(lia)). lia.
Qed.

Lemma PutUint32_Uint32 (b0 b1 b2 b3 : byte) (v : Z) :
  Uint32 [b0; b1; b2; b3] = Some v -> PutUint32 v = [b0; b1; b2; b3].
Proof.
  rewrite Uint32_value. intros [= <-].
  pose proof (Z_of_byte_range b0). pose proof (Z_of_byte_range b1).
  pose proof (Z_of_byte_range b2). pose proof (Z_of_byte_range b3).
  set (x0 := Z_of_byte b0) in *. set (x1 := Z_of_byte b1) in *.
  set (x2 := Z_of_byte b2) in *. set (x3 := Z_of_byte b3) in *.
  unfold PutUint32. rewrite !Z.shiftr_div_pow2 by lia.
  replace ((((x0 * 256 + x1) * 256 + x2) * 256 + x3) / 2 ^ 24) with x0
    by (apply Z.div_unique with (r := (x1 * 256 + x2) * 256 + x3); lia).
  replace ((((x0 * 256 + x1) * 256 + x2) * 256 + x3) / 2 ^ 16)
    with (x0 * 256 + x1)
    by (apply Z.div_unique with (r := x2 * 256 + x3); lia).
  replace ((((x0 * 256 + x1) * 256 + x2) * 256 + x3) / 2 ^ 8)
    with ((x0 * 256 + x1) * 256 + x2)
    by (apply Z.div_unique with (r := x3); lia).
  assert (Hlow : forall hi (b : byte), byte_of_Z (hi * 256 + Z_of_byte b) = b).
  { intros hi b. rewrite <- (byte_of_Z_of_byte b) at 2. unfold byte_of_Z.
    rewrite Z.add_comm, Z.mod_add by lia. reflexivity. }
  subst x0 x1 x2 x3.
  rewrite !Hlow, byte_of_Z_of_byte. reflexivity.
Qed.

Lemma Uint32_PutUint32 (v : Z) :
  0 <= v < 2 ^ 32 -> Uint32 (PutUint32 v) = Some v.
Proof.
  intros Hv. unfold PutUint32.
  rewrite Uint32_value, !Z_of_byte_of_Z, !Z.shiftr_div_pow2 by lia.
  change (2 ^ 24) with 16777216. change (2 ^ 16) with 65536.
  change (2 ^ 8) with 256. change (2 ^ 32) with 4294967296 in Hv.
  f_equal. Z.div_mod_to_equations. lia.
Qed.

Lemma Uint16_range (s : list byte) (v : Z) :
  Uint16 s = Some v -> 0 <= v < 2 ^ 16.
Proof.
  destruct s as [|b0 [|b1 rest]]; try discriminate.
  rewrite Uint16_value. intros [= <-].
  pose proof (Z_of_byte_range b0). pose proof (Z_of_byte_range b1). lia.
Qed.

Lemma Uint32_range (s : list byte) (v : Z) :
  Uint32 s = Some v -> 0 <= v < 2 ^ 32.
Proof.
  destruct s as [|b0 [|b1 [|b2 [|b3 rest]]]]; try discriminate.
  rewrite Uint32_value. intros [= <-].
  pose proof (Z_of_byte_range b0). pose proof (Z_of_byte_range b1).
  pose proof (Z_of_byte_range b2). pose proof (Z_of_byte_range b3). lia.
Qed.

Lemma Equal_eq (a b : list byte) : Equal a b = true <-> a = b.
Proof.
  revert b. induction a as [|x a IH]; intros [|y b]; simpl;
    try (split; [discriminate | congruence]); try tauto.
  rewrite andb_true_iff, IH. unfold byte_eqb. split.
  - intros [Hxy ->]. apply Byte.byte_dec_bl in Hxy. congruence.
  - intros [= -> ->]. split; [apply Byte.byte_dec_lb|]; reflexivity.
Qed.

(** ** Slices *)

Lemma slice_Some_iff (b : list byte) (lo hi : Z) :
  (exists s, slice b lo hi = Some s) <-> 0 <= lo <= hi /\ hi <= len b.
Proof.
  unfold slice.
  destruct (Z.leb_spec 0 lo), (Z.leb_spec lo hi), (Z.leb_spec hi (len b));
    simpl; split; try (intros [s [=]]); try lia; eauto.
Qed.

Lemma slice_bounds (b s : list byte) (lo hi : Z) :
  slice b lo hi = Some s -> 0 <= lo <= hi /\ hi <= len b.
Proof. intros H. apply slice_Some_iff. eauto. Qed.

Lemma slice_in_bounds (b : list byte) (lo hi : Z) :
  0 <= lo <= hi -> hi <= len b ->
  slice b lo hi = Some (firstn (Z.to_nat (hi - lo)) (skipn (Z.to_nat lo) b)).
Proof.
  intros H1 H2. unfold slice.
  destruct (Z.leb_spec 0 lo), (Z.leb_spec lo hi), (Z.leb_spec hi (len b));
    simpl; try lia; reflexivity.
Qed.

Lemma slice_length (b s : list byte) (lo hi : Z) :
  slice b lo hi = Some s -> len s = hi - lo.
Proof.
  intros H. pose proof (slice_bounds _ _ _ _ H) as [Hlo Hhi].
  rewrite slice_in_bounds in H by assumption. injection H as <-.
  unfold len in *. rewrite length_firstn, length_skipn. lia.
Qed.

Lemma slice_out_of_bounds (b : list byte) (lo hi : Z) :
  len b < hi -> slice b lo hi = None.
Proof.
  intros H. destruct (slice b lo hi) eqn:E; [|reflexivity].
  apply slice_bounds in E. lia.
Qed.

(** A longer slice from the same start exists whenever a later one
    does. *)
Lemma slice_covered (b s : list byte) (lo hi lo' hi' : Z) :
  slice b lo hi = Some s -> 0 <= lo' <= hi' -> hi' <= hi ->
  exists s', slice b lo' hi' = Some s'.
Proof.
  intros H Hlo Hhi. apply slice_bounds in H.
  apply slice_Some_iff. lia.
Qed.

Lemma len_1 (s : list byte) :
  len s = 1 -> exists b0, s = [b0].
Proof.
  unfold len. destruct s as [|b0 [|b1 s]]; simpl; intros H; try lia. eauto.
Qed.

Lemma len_2 (s : list byte) :
  len s = 2 -> exists b0 b1, s = [b0; b1].
Proof.
  unfold len. destruct s as [|b0 [|b1 [|b2 s]]]; simpl; intros H; try lia.
  eauto.
Qed.

Lemma len_4 (s : list byte) :
  len s = 4 -> exists b0 b1 b2 b3, s = [b0; b1; b2; b3].
Proof.
  unfold len.
  destruct s as [|b0 [|b1 [|b2 [|b3 [|b4 s]]]]]; simpl; intros H; try lia.
  eauto 6.
Qed.

(** ** Loads of the filter machine *)

Lemma loadCommon_2 (pkt : list byte) (off : Z) :
  (slice pkt off (off + 2) = None /\
   bpf.loadCommon pkt off 2 = bpf.OutOfBounds) \/
  (exists s v, slice pkt off (off + 2) = Some s /\ Uint16 s = Some v /\
               PutUint16 v = s /\ 0 <= v < 2 ^ 16 /\
               bpf.loadCommon pkt off 2 = bpf.Value v).
Proof.
  unfold bpf.loadCommon.
  destruct (slice pkt off (off + 2)) as [s|] eqn:E; [right|left; auto].
  pose proof (slice_length _ _ _ _ E) as Hl.
  destruct (len_2 s) as (b0 & b1 & ->); [lia|].
  destruct (Uint16 [b0; b1]) as [v|] eqn:Ev; [|discriminate].
  exists [b0; b1], v.
  split; [reflexivity|]. split; [exact Ev|].
  split; [apply PutUint16_Uint16; exact Ev|].
  split; [apply (Uint16_range _ _ Ev)|]. reflexivity.
Qed.

Lemma loadCommon_4 (pkt : list byte) (off : Z) :
  (slice pkt off (off + 4) = None /\
   bpf.loadCommon pkt off 4 = bpf.OutOfBounds) \/
  (exists s v, slice pkt off (off + 4) = Some s /\ Uint32 s = Some v /\
               PutUint32 v = s /\ 0 <= v < 2 ^ 32 /\
               bpf.loadCommon pkt off 4 = bpf.Value v).
Proof.
  unfold bpf.loadCommon.
  destruct (slice pkt off (off + 4)) as [s|] eqn:E; [right|left; auto].
  pose proof (slice_length _ _ _ _ E) as Hl.
  destruct (len_4 s) as (b0 & b1 & b2 & b3 & ->); [lia|].
  destruct (Uint32 [b0; b1; b2; b3]) as [v|] eqn:Ev; [|discriminate].
  exists [b0; b1; b2; b3], v.
  split; [reflexivity|]. split; [exact Ev|].
  split; [apply PutUint32_Uint32; exact Ev|].
  split; [apply (Uint32_range _ _ Ev)|]. reflexivity.
Qed.

(** A four-byte load gives the magic value exactly when the four bytes
    are the magic value's bytes. *)
Lemma loadCommon_4_marker (pkt : list byte) (off magic : Z) :
  0 <= magic < 2 ^ 32 ->
  (bpf.loadCommon pkt off 4 = bpf.Value magic <->
   slice pkt off (off + 4) = Some (PutUint32 magic)).
Proof.
  intros Hm.
  destruct (loadCommon_4 pkt off) as [[Hs Hl]|(s & v & Hs & Hu & Hp & Hr & Hl)];
    rewrite Hl, Hs.
  - split; discriminate.
  - split.
    + intros [= ->]. congruence.
    + intros [= ->]. rewrite Uint32_PutUint32 in Hu by assumption. congruence.
Qed.

Lemma loadCommon_2_marker (pkt : list byte) (off magic : Z) :
  0 <= magic < 2 ^ 16 ->
  (bpf.loadCommon pkt off 2 = bpf.Value magic <->
   slice pkt off (off + 2) = Some (PutUint16 magic)).
Proof.
  intros Hm.
  destruct (loadCommon_2 pkt off) as [[Hs Hl]|(s & v & Hs & Hu & Hp & Hr & Hl)];
    rewrite Hl, Hs.
  - split; discriminate.
  - split.
    + intros [= ->]. congruence.
    + intros [= ->]. rewrite Uint16_PutUint16 in Hu by assumption. congruence.
Qed.

Lemma loadMemShift_0 (pkt : list byte) :
  bpf.loadMemShift pkt 0 =
  match ipHeaderLength pkt with
  | Some hl => bpf.Value hl
  | None => bpf.OutOfBounds
  end.
Proof.
  unfold bpf.loadMemShift, ipHeaderLength.
  destruct pkt as [|b pkt]; [reflexivity|].
  rewrite slice_in_bounds by (unfold len; simpl List.length; lia).
  reflexivity.
Qed.

Lemma ipHeaderLength_nonneg (pkt : list byte) (hl : Z) :
  ipHeaderLength pkt = Some hl -> 0 <= hl.
Proof.
  destruct pkt as [|b pkt]; [discriminate|]. unfold ipHeaderLength. intros H.
  assert (hl = 4 * Z.land (Z_of_byte b) 15) as -> by congruence.
  pose proof (Z_of_byte_range b).
  assert (0 <= Z.land (Z_of_byte b) 15) by (apply Z.land_nonneg; lia). lia.
Qed.

Lemma fragField_load (pkt : list byte) :
  bpf.loadCommon pkt 6 2 =
  match fragField pkt with
  | Some v => bpf.Value v
  | None => bpf.OutOfBounds
  end.
Proof.
  unfold fragField. change 8 with (6 + 2).
  destruct (loadCommon_2 pkt 6) as [[Hs Hl]|(s & v & Hs & Hu & _ & _ & Hl)];
    rewrite Hl, Hs; [|rewrite Hu]; reflexivity.
Qed.

(** ** Runs of the filter machine *)

(** Jumps only go forward, so a run needs at most one step per
    instruction left: with more fuel than that it never runs dry.  This
    holds for every program. *)
Lemma exec_enough_fuel (prog : list bpf.Instruction) (pkt : list byte) :
  forall (fuel i : nat) (regA regX : Z),
    (List.length prog - i < fuel)%nat ->
    bpf.exec fuel prog pkt i regA regX <> bpf.OutOfFuel.
Proof.
  induction fuel as [|fuel IH]; intros i regA regX Hfuel; [lia|].
  cbn [bpf.exec].
  destruct (nth_error prog i) as [ins|] eqn:Hi; [|discriminate].
  assert (i < List.length prog)%nat
    by (apply nth_error_Some; congruence).
  destruct ins as [off size|off size|off|cond val st sf|val].
  - destruct (bpf.loadCommon pkt off size); try discriminate.
    apply IH. lia.
  - destruct (bpf.loadCommon pkt (off + regX) size); try discriminate.
    apply IH. lia.
  - destruct (bpf.loadMemShift pkt off); try discriminate.
    apply IH. lia.
  - apply IH. lia.
  - discriminate.
Qed.

Lemma Run_terminates (prog : list bpf.Instruction) (pkt : list byte) :
  bpf.Run prog pkt <> bpf.OutOfFuel.
Proof. apply exec_enough_fuel. lia. Qed.

Lemma checkFrom_sound (len0 : nat) :
  forall (rest : list bpf.Instruction) (base i : nat) cond val st sf,
    bpf.checkFrom len0 base rest = true ->
    nth_error rest i = Some (bpf.JumpIf cond val st sf) ->
    (base + i < bpf.target (base + i) st < len0)%nat /\
    (base + i < bpf.target (base + i) sf < len0)%nat.
Proof.
  induction rest as [|ins rest IH]; intros base i cond val st sf Hc Hn.
  - destruct i; discriminate.
  - cbn [bpf.checkFrom] in Hc.
    apply andb_true_iff in Hc as [Hc Hrest].
    apply andb_true_iff in Hc as [Hb Hf].
    destruct i as [|i]; cbn [nth_error] in Hn.
    + injection Hn as ->. cbn [bpf.jumpInBounds bpf.jumpForward] in Hb, Hf.
      apply andb_true_iff in Hb as [Hb1 Hb2].
      apply andb_true_iff in Hf as [Hf1 Hf2].
      apply Nat.ltb_lt in Hb1, Hb2, Hf1, Hf2.
      rewrite Nat.add_0_r. lia.
    + specialize (IH (S base) i cond val st sf Hrest Hn).
      replace (base + S i)%nat with (S base + i)%nat by lia. exact IH.
Qed.

Lemma jumpsWellFormed_sound (prog : list bpf.Instruction) :
  bpf.jumpsWellFormed prog = true -> jumpsInBoundsForward prog.
Proof.
  intros H i cond val st sf Hn.
  apply (checkFrom_sound _ prog 0%nat i cond val st sf H Hn).
Qed.

Lemma exec_S (fuel : nat) (prog : list bpf.Instruction) (pkt : list byte)
      (i : nat) (regA regX : Z) :
  bpf.exec (S fuel) prog pkt i regA regX =
  match nth_error prog i with
  | None => bpf.FellOff
  | Some (bpf.LoadAbsolute off size) =>
      match bpf.loadCommon pkt off size with
      | bpf.Value v => bpf.exec fuel prog pkt (S i) v regX
      | bpf.OutOfBounds => bpf.LoadFault i
      | bpf.BadSize => bpf.InvalidSize i
      end
  | Some (bpf.LoadIndirect off size) =>
      match bpf.loadCommon pkt (off + regX) size with
      | bpf.Value v => bpf.exec fuel prog pkt (S i) v regX
      | bpf.OutOfBounds => bpf.LoadFault i
      | bpf.BadSize => bpf.InvalidSize i
      end
  | Some (bpf.LoadMemShift off) =>
      match bpf.loadMemShift pkt off with
      | bpf.Value v => bpf.exec fuel prog pkt (S i) regA v
      | _ => bpf.LoadFault i
      end
  | Some (bpf.JumpIf cond val st sf) =>
      bpf.exec fuel prog pkt (S i + bpf.jumpIf cond val st sf regA) regA regX
  | Some (bpf.RetConstant val) => bpf.Returned i val
  end.
Proof. reflexivity. Qed.

(** One step of a run at a known instruction. *)
Ltac bpf_step H := rewrite exec_S, H.

Section FilterRuns.

Variables discoMagic1 discoMagic2 : Z.

(** The IPv6 program, run symbolically. *)
Lemma Run_V6 (pkt : list byte) :
  bpf.Run (magicsockFilterV6 discoMagic1 discoMagic2) pkt =
  match bpf.loadCommon pkt 8 4 with
  | bpf.Value v1 =>
      if v1 =? discoMagic1 then
        match bpf.loadCommon pkt 12 2 with
        | bpf.Value v2 =>
            if v2 =? discoMagic2 then bpf.Returned 4 0xFFFFFFFF
            else bpf.Returned 5 0
        | bpf.OutOfBounds => bpf.LoadFault 2
        | bpf.BadSize => bpf.InvalidSize 2
        end
      else bpf.Returned 5 0
  | bpf.OutOfBounds => bpf.LoadFault 0
  | bpf.BadSize => bpf.InvalidSize 0
  end.
Proof.
  unfold bpf.Run.
  change (List.length (magicsockFilterV6 discoMagic1 discoMagic2)) with 6%nat.
  assert (I0 : nth_error (magicsockFilterV6 discoMagic1 discoMagic2) 0
               = Some (bpf.LoadAbsolute 8 4)) by reflexivity.
  assert (I1 : nth_error (magicsockFilterV6 discoMagic1 discoMagic2) 1
               = Some (bpf.JumpIf bpf.JumpEqual discoMagic1 0 3))
    by reflexivity.
  assert (I2 : nth_error (magicsockFilterV6 discoMagic1 discoMagic2) 2
               = Some (bpf.LoadAbsolute 12 2)) by reflexivity.
  assert (I3 : nth_error (magicsockFilterV6 discoMagic1 discoMagic2) 3
               = Some (bpf.JumpIf bpf.JumpEqual discoMagic2 0 1))
    by reflexivity.
  assert (I4 : nth_error (magicsockFilterV6 discoMagic1 discoMagic2) 4
               = Some (bpf.RetConstant 0xFFFFFFFF)) by reflexivity.
  assert (I5 : nth_error (magicsockFilterV6 discoMagic1 discoMagic2) 5
               = Some (bpf.RetConstant 0)) by reflexivity.
  generalize dependent (magicsockFilterV6 discoMagic1 discoMagic2).
  intros prog I0 I1 I2 I3 I4 I5.
  bpf_step I0.
  destruct (bpf.loadCommon pkt 8 4) as [v1| |]; [|reflexivity|reflexivity].
  bpf_step I1. unfold bpf.jumpIf, bpf.jumpTest.
  destruct (v1 =? discoMagic1); cbn [Nat.add].
  - bpf_step I2.
    destruct (bpf.loadCommon pkt 12 2) as [v2| |]; [|reflexivity|reflexivity].
    bpf_step I3. unfold bpf.jumpIf, bpf.jumpTest.
    destruct (v2 =? discoMagic2); cbn [Nat.add].
    + bpf_step I4. reflexivity.
    + bpf_step I5. reflexivity.
  - bpf_step I5. reflexivity.
Qed.

(** The IPv4 program, run symbolically. *)
Lemma Run_V4 (pkt : list byte) :
  bpf.Run (magicsockFilterV4 discoMagic1 discoMagic2) pkt =
  match bpf.loadCommon pkt 6 2 with
  | bpf.Value f =>
      if moreFragments f then bpf.Returned 9 0
      else if negb (fragmentOffset f =? 0) then bpf.Returned 9 0
      else
        match bpf.loadMemShift pkt 0 with
        | bpf.Value hl =>
            match bpf.loadCommon pkt (8 + hl) 4 with
            | bpf.Value v1 =>
                if v1 =? discoMagic1 then
                  match bpf.loadCommon pkt (12 + hl) 2 with
                  | bpf.Value v2 =>
                      if v2 =? uint32 discoMagic2
                      then bpf.Returned 8 0xFFFFFFFF
                      else bpf.Returned 9 0
                  | bpf.OutOfBounds => bpf.LoadFault 6
                  | bpf.BadSize => bpf.InvalidSize 6
                  end
                else bpf.Returned 9 0
            | bpf.OutOfBounds => bpf.LoadFault 4
            | bpf.BadSize => bpf.InvalidSize 4
            end
        | _ => bpf.LoadFault 3
        end
  | bpf.OutOfBounds => bpf.LoadFault 0
  | bpf.BadSize => bpf.InvalidSize 0
  end.
Proof.
  unfold bpf.Run.
  change (List.length (magicsockFilterV4 discoMagic1 discoMagic2)) with 10%nat.
  assert (I0 : nth_error (magicsockFilterV4 discoMagic1 discoMagic2) 0
               = Some (bpf.LoadAbsolute 6 2)) by reflexivity.
  assert (I1 : nth_error (magicsockFilterV4 discoMagic1 discoMagic2) 1
               = Some (bpf.JumpIf bpf.JumpBitsSet 0x2000 7 0)) by reflexivity.
  assert (I2 : nth_error (magicsockFilterV4 discoMagic1 discoMagic2) 2
               = Some (bpf.JumpIf bpf.JumpBitsSet 0x1fff 6 0)) by reflexivity.
  assert (I3 : nth_error (magicsockFilterV4 discoMagic1 discoMagic2) 3
               = Some (bpf.LoadMemShift 0)) by reflexivity.
  assert (I4 : nth_error (magicsockFilterV4 discoMagic1 discoMagic2) 4
               = Some (bpf.LoadIndirect 8 4)) by reflexivity.
  assert (I5 : nth_error (magicsockFilterV4 discoMagic1 discoMagic2) 5
               = Some (bpf.JumpIf bpf.JumpEqual discoMagic1 0 3))
    by reflexivity.
  assert (I6 : nth_error (magicsockFilterV4 discoMagic1 discoMagic2) 6
               = Some (bpf.LoadIndirect 12 2)) by reflexivity.
  assert (I7 : nth_error (magicsockFilterV4 discoMagic1 discoMagic2) 7
               = Some (bpf.JumpIf bpf.JumpEqual (uint32 discoMagic2) 0 1))
    by reflexivity.
  assert (I8 : nth_error (magicsockFilterV4 discoMagic1 discoMagic2) 8
               = Some (bpf.RetConstant 0xFFFFFFFF)) by reflexivity.
  assert (I9 : nth_error (magicsockFilterV4 discoMagic1 discoMagic2) 9
               = Some (bpf.RetConstant 0)) by reflexivity.
  generalize dependent (magicsockFilterV4 discoMagic1 discoMagic2).
  intros prog I0 I1 I2 I3 I4 I5 I6 I7 I8 I9.
  bpf_step I0.
  destruct (bpf.loadCommon pkt 6 2) as [f| |]; [|reflexivity|reflexivity].
  bpf_step I1. unfold bpf.jumpIf, bpf.jumpTest, moreFragments.
  destruct (negb (Z.land f 8192 =? 0)); cbn [Nat.add];
    [bpf_step I9; reflexivity|].
  bpf_step I2. unfold bpf.jumpIf, bpf.jumpTest, fragmentOffset.
  destruct (negb (Z.land f 8191 =? 0)); cbn [Nat.add];
    [bpf_step I9; reflexivity|].
  bpf_step I3.
  destruct (bpf.loadMemShift pkt 0) as [hl| |]; [|reflexivity|reflexivity].
  bpf_step I4.
  destruct (bpf.loadCommon pkt (8 + hl) 4) as [v1| |];
    [|reflexivity|reflexivity].
  bpf_step I5. unfold bpf.jumpIf, bpf.jumpTest.
  destruct (v1 =? discoMagic1); cbn [Nat.add];
    [|bpf_step I9; reflexivity].
  bpf_step I6.
  destruct (bpf.loadCommon pkt (12 + hl) 2) as [v2| |];
    [|reflexivity|reflexivity].
  bpf_step I7. unfold bpf.jumpIf, bpf.jumpTest.
  destruct (v2 =? uint32 discoMagic2); cbn [Nat.add].
  - bpf_step I8. reflexivity.
  - bpf_step I9. reflexivity.
Qed.

End FilterRuns.

(** ** The filter programs: what they accept *)

Section FilterProperties.

Variables discoMagic1 discoMagic2 : Z.
Hypothesis magic1_range : 0 <= discoMagic1 < 2 ^ 32.
Hypothesis magic2_range : 0 <= discoMagic2 < 2 ^ 16.

Lemma uint32_magic2 : uint32 discoMagic2 = discoMagic2.
Proof. unfold uint32. apply Z.mod_small. lia. Qed.

(** The IPv6 program gives 0xFFFFFFFF when the marker is at offset 8 and
    zero otherwise. *)
Lemma V6_verdict (pkt : list byte) :
  (markerAt discoMagic1 discoMagic2 pkt 8 /\
   bpf.verdict (bpf.Run (magicsockFilterV6 discoMagic1 discoMagic2) pkt)
   = Some 0xFFFFFFFF) \/
  (~ markerAt discoMagic1 discoMagic2 pkt 8 /\
   bpf.verdict (bpf.Run (magicsockFilterV6 discoMagic1 discoMagic2) pkt)
   = Some 0).
Proof.
  rewrite Run_V6. unfold markerAt.
  change (8 + 4) with 12. change (8 + 6) with (12 + 2).
  pose proof (loadCommon_4_marker pkt 8 discoMagic1 magic1_range) as M1.
  pose proof (loadCommon_2_marker pkt 12 discoMagic2 magic2_range) as M2.
  change (8 + 4) with 12 in M1.
  destruct (loadCommon_4 pkt 8) as [[_ L1]|(s1 & v1 & _ & _ & _ & _ & L1)];
    rewrite L1 in *.
  { right. split; [|reflexivity]. intros [H _]. apply M1 in H. discriminate. }
  destruct (Z.eqb_spec v1 discoMagic1) as [->|Hne1].
  2:{ right. split; [|reflexivity]. intros [H _]. apply M1 in H. congruence. }
  destruct (loadCommon_2 pkt 12) as [[_ L2]|(s2 & v2 & _ & _ & _ & _ & L2)];
    rewrite L2 in *.
  { right. split; [|reflexivity]. intros [_ H]. apply M2 in H. discriminate. }
  destruct (Z.eqb_spec v2 discoMagic2) as [->|Hne2].
  - left. split; [|reflexivity]. split; [apply M1|apply M2]; reflexivity.
  - right. split; [|reflexivity]. intros [_ H]. apply M2 in H. congruence.
Qed.

(** The IPv4 program on an unfragmented packet gives 0xFFFFFFFF when the
    marker is 8 bytes after the IP header and zero otherwise. *)
Lemma V4_verdict (pkt : list byte) :
  fragmented pkt = false ->
  (markerAtV4 discoMagic1 discoMagic2 pkt /\
   bpf.verdict (bpf.Run (magicsockFilterV4 discoMagic1 discoMagic2) pkt)
   = Some 0xFFFFFFFF) \/
  (~ markerAtV4 discoMagic1 discoMagic2 pkt /\
   bpf.verdict (bpf.Run (magicsockFilterV4 discoMagic1 discoMagic2) pkt)
   = Some 0).
Proof.
  intros Hfrag. rewrite Run_V4, fragField_load, loadMemShift_0, uint32_magic2.
  unfold fragmented in Hfrag. unfold markerAtV4, markerAt.
  destruct (fragField pkt) as [f|] eqn:Ef.
  2:{ (* fewer than 8 bytes: the marker cannot be there either *)
      right. split; [|reflexivity].
      intros (hl & Hhl & H1 & _).
      apply ipHeaderLength_nonneg in Hhl.
      unfold fragField in Ef.
      destruct (slice_covered _ _ _ _ 6 8 H1) as [s Hs]; [lia|lia|].
      rewrite Hs in Ef.
      pose proof (slice_length _ _ _ _ Hs) as Hl.
      destruct (len_2 s) as (b0 & b1 & ->); [lia|]. discriminate. }
  apply orb_false_iff in Hfrag as [Hmf Hoff]. rewrite Hmf, Hoff.
  destruct (ipHeaderLength pkt) as [hl|] eqn:Ehl.
  2:{ right. split; [|reflexivity]. intros (hl & [=] & _). }
  pose proof (loadCommon_4_marker pkt (8 + hl) discoMagic1 magic1_range) as M1.
  pose proof (loadCommon_2_marker pkt (12 + hl) discoMagic2 magic2_range) as M2.
  replace (8 + hl + 4) with (hl + 8 + 4) in M1 by lia.
  replace (8 + hl) with (hl + 8) in * by lia.
  replace (12 + hl + 2) with (hl + 8 + 6) in M2 by lia.
  replace (12 + hl) with (hl + 8 + 4) in * by lia.
  assert (Hinv : forall P : Z -> Prop,
             (exists hl', Some hl = Some hl' /\ P hl') <-> P hl).
  { intros P. split; [intros (hl' & [= <-] & H); exact H | eauto]. }
  rewrite Hinv.
  destruct (loadCommon_4 pkt (hl + 8))
    as [[_ L1]|(s1 & v1 & _ & _ & _ & _ & L1)]; rewrite L1 in *.
  { right. split; [|reflexivity]. intros [H _]. apply M1 in H. discriminate. }
  destruct (Z.eqb_spec v1 discoMagic1) as [->|Hne1].
  2:{ right. split; [|reflexivity]. intros [H _]. apply M1 in H. congruence. }
  destruct (loadCommon_2 pkt (hl + 8 + 4))
    as [[_ L2]|(s2 & v2 & _ & _ & _ & _ & L2)]; rewrite L2 in *.
  { right. split; [|reflexivity]. intros [_ H]. apply M2 in H. discriminate. }
  destruct (Z.eqb_spec v2 discoMagic2) as [->|Hne2].
  - left. split; [|reflexivity]. split; [apply M1|apply M2]; reflexivity.
  - right. split; [|reflexivity]. intros [_ H]. apply M2 in H. congruence.
Qed.

End FilterProperties.

Example testDiscoPacket_length : len testDiscoPacket = 62.
Proof. reflexivity. Qed.

Example testDiscoPacket_magic :
  Uint32 (firstn 4 testDiscoPacket) = Some testMagic1 /\
  Uint16 (firstn 2 (skipn 4 testDiscoPacket)) = Some testMagic2.
Proof. split; reflexivity. Qed.

Example V6_accepts_test_packet :
  bpf.Run (magicsockFilterV6 testMagic1 testMagic2) sampleV6Packet
  = bpf.Returned 4 0xFFFFFFFF.
Proof. vm_compute. reflexivity. Qed.

Example V4_accepts_test_packet :
  bpf.Run (magicsockFilterV4 testMagic1 testMagic2) sampleV4Packet
  = bpf.Returned 8 0xFFFFFFFF.
Proof. vm_compute. reflexivity. Qed.

Example V4_drops_fragment_of_test_packet :
  bpf.Run (magicsockFilterV4 testMagic1 testMagic2) sampleV4Fragment
  = bpf.Returned 9 0.
Proof. vm_compute. reflexivity. Qed.

Example V6_short_datagram :
  bpf.Run (magicsockFilterV6 testMagic1 testMagic2) sampleShortDatagram
  = bpf.LoadFault 0.
Proof. vm_compute. reflexivity. Qed.

(** C2.  With the first magic value a 32-bit and the second a 16-bit
    number: on every unfragmented IPv4 packet the IPv4 program returns a
    non-zero value exactly when the four bytes at header length + 8 are
    the first magic value and the two bytes at header length + 12 are the
    second; on every buffer the IPv6 program returns a non-zero value
    exactly when the same holds at offsets 8 and 12.  In every other
    case, a segment differing in a single byte included, the result is
    zero. *)
Theorem filters_accept_exactly_the_marker
  (discoMagic1 discoMagic2 : Z) (pkt4 pkt6 : list byte) :
  0 <= discoMagic1 < 2 ^ 32 ->
  0 <= discoMagic2 < 2 ^ 16 ->
  fragmented pkt4 = false ->
  (exists v,
      bpf.verdict (bpf.Run (magicsockFilterV4 discoMagic1 discoMagic2) pkt4)
      = Some v /\
      (v <> 0 <-> markerAtV4 discoMagic1 discoMagic2 pkt4) /\
      (~ markerAtV4 discoMagic1 discoMagic2 pkt4 -> v = 0)) /\
  (exists v,
      bpf.verdict (bpf.Run (magicsockFilterV6 discoMagic1 discoMagic2) pkt6)
      = Some v /\
      (v <> 0 <-> markerAt discoMagic1 discoMagic2 pkt6 8) /\
      (~ markerAt discoMagic1 discoMagic2 pkt6 8 -> v = 0)).
Proof.
  intros H1 H2 Hfrag. split.
  - destruct (V4_verdict _ _ H1 H2 pkt4 Hfrag) as [[Hm Hv]|[Hm Hv]];
      rewrite Hv; eexists; (split; [reflexivity|]); split;
      try (split; intros; [assumption || contradiction | lia]);
      try (split; intros; [lia | contradiction]);
      intros; try reflexivity; contradiction.
  - destruct (V6_verdict _ _ H1 H2 pkt6) as [[Hm Hv]|[Hm Hv]];
      rewrite Hv; eexists; (split; [reflexivity|]); split;
      try (split; intros; [assumption || contradiction | lia]);
      try (split; intros; [lia | contradiction]);
      intros; try reflexivity; contradiction.
Qed.

Lemma filters_accept_exactly_the_marker_witness :
  (exists v,
      bpf.verdict (bpf.Run (magicsockFilterV4 testMagic1 testMagic2)
                           sampleV4Packet) = Some v /\
      (v <> 0 <-> markerAtV4 testMagic1 testMagic2 sampleV4Packet) /\
      (~ markerAtV4 testMagic1 testMagic2 sampleV4Packet -> v = 0)) /\
  (exists v,
      bpf.verdict (bpf.Run (magicsockFilterV6 testMagic1 testMagic2)
                           sampleV6Packet) = Some v /\
      (v <> 0 <-> markerAt testMagic1 testMagic2 sampleV6Packet 8) /\
      (~ markerAt testMagic1 testMagic2 sampleV6Packet 8 -> v = 0)).
Proof.
  apply (filters_accept_exactly_the_marker
           testMagic1 testMagic2 sampleV4Packet sampleV6Packet).
  - unfold testMagic1. lia.
  - unfold testMagic2. lia.
  - reflexivity.
Defined.

(** C3.  When bytes 6-7 of the buffer have the more-fragments bit
    (0x2000) set or a non-zero fragment offset (0x1fff), the IPv4
    program returns zero, whatever the rest of the buffer holds. *)
Theorem V4_drops_every_fragment
  (discoMagic1 discoMagic2 : Z) (pkt : list byte) (f : Z) :
  fragField pkt = Some f ->
  Z.land f 0x2000 <> 0 \/ Z.land f 0x1fff <> 0 ->
  bpf.Run (magicsockFilterV4 discoMagic1 discoMagic2) pkt = bpf.Returned 9 0 /\
  bpf.verdict (bpf.Run (magicsockFilterV4 discoMagic1 discoMagic2) pkt)
  = Some 0.
Proof.
  intros Hf Hbits.
  assert (bpf.Run (magicsockFilterV4 discoMagic1 discoMagic2) pkt
          = bpf.Returned 9 0) as ->; [|split; reflexivity].
  rewrite Run_V4, fragField_load, Hf.
  unfold moreFragments, fragmentOffset.
  destruct (Z.eqb_spec (Z.land f 0x2000) 0) as [E1|E1]; [|reflexivity].
  destruct (Z.eqb_spec (Z.land f 0x1fff) 0) as [E2|E2]; [|reflexivity].
  tauto.
Qed.

Lemma V4_drops_every_fragment_witness :
  bpf.Run (magicsockFilterV4 testMagic1 testMagic2) sampleV4Fragment
  = bpf.Returned 9 0 /\
  bpf.verdict (bpf.Run (magicsockFilterV4 testMagic1 testMagic2)
                       sampleV4Fragment) = Some 0.
Proof.
  apply (V4_drops_every_fragment testMagic1 testMagic2 sampleV4Fragment 0x2000).
  - reflexivity.
  - left. vm_compute. discriminate.
Defined.

(** ** The filter programs: shape and termination *)

Lemma V6_ends (discoMagic1 discoMagic2 : Z) (pkt : list byte) :
  bpf.Run (magicsockFilterV6 discoMagic1 discoMagic2) pkt
  = bpf.Returned 4 0xFFFFFFFF \/
  bpf.Run (magicsockFilterV6 discoMagic1 discoMagic2) pkt
  = bpf.Returned 5 0 \/
  endsAtLoadFault (magicsockFilterV6 discoMagic1 discoMagic2)
                  (bpf.Run (magicsockFilterV6 discoMagic1 discoMagic2) pkt).
Proof.
  rewrite Run_V6. unfold endsAtLoadFault.
  destruct (loadCommon_4 pkt 8) as [[_ L1]|(s1 & v1 & _ & _ & _ & _ & L1)];
    rewrite L1.
  { right. right. do 2 eexists. repeat split; reflexivity. }
  destruct (v1 =? discoMagic1); [|auto].
  destruct (loadCommon_2 pkt 12) as [[_ L2]|(s2 & v2 & _ & _ & _ & _ & L2)];
    rewrite L2.
  { right. right. do 2 eexists. repeat split; reflexivity. }
  destruct (v2 =? discoMagic2); auto.
Qed.

Lemma V4_ends (discoMagic1 discoMagic2 : Z) (pkt : list byte) :
  bpf.Run (magicsockFilterV4 discoMagic1 discoMagic2) pkt
  = bpf.Returned 8 0xFFFFFFFF \/
  bpf.Run (magicsockFilterV4 discoMagic1 discoMagic2) pkt
  = bpf.Returned 9 0 \/
  endsAtLoadFault (magicsockFilterV4 discoMagic1 discoMagic2)
                  (bpf.Run (magicsockFilterV4 discoMagic1 discoMagic2) pkt).
Proof.
  rewrite Run_V4, loadMemShift_0. unfold endsAtLoadFault.
  destruct (loadCommon_2 pkt 6) as [[_ L0]|(s0 & f & _ & _ & _ & _ & L0)];
    rewrite L0.
  { right. right. do 2 eexists. repeat split; reflexivity. }
  destruct (moreFragments f); [auto|].
  destruct (negb (fragmentOffset f =? 0)); [auto|].
  destruct (ipHeaderLength pkt) as [hl|].
  2:{ right. right. do 2 eexists. repeat split; reflexivity. }
  destruct (loadCommon_4 pkt (8 + hl))
    as [[_ L1]|(s1 & v1 & _ & _ & _ & _ & L1)]; rewrite L1.
  { right. right. do 2 eexists. repeat split; reflexivity. }
  destruct (v1 =? discoMagic1); [|auto].
  destruct (loadCommon_2 pkt (12 + hl))
    as [[_ L2]|(s2 & v2 & _ & _ & _ & _ & L2)]; rewrite L2.
  { right. right. do 2 eexists. repeat split; reflexivity. }
  destruct (v2 =? uint32 discoMagic2); auto.
Qed.

(** C7, as the programs behave.  In both programs every conditional
    jump lands on an instruction of the program that lies after the
    jump.  On every input either program stops within one step per
    instruction, and it stops at one of its two return instructions or,
    when a load reaches past the end of the buffer, at that load, with
    result zero. *)
Theorem filters_jump_forward_and_terminate (discoMagic1 discoMagic2 : Z) :
  jumpsInBoundsForward (magicsockFilterV4 discoMagic1 discoMagic2) /\
  jumpsInBoundsForward (magicsockFilterV6 discoMagic1 discoMagic2) /\
  forall pkt : list byte,
    (bpf.Run (magicsockFilterV4 discoMagic1 discoMagic2) pkt <> bpf.OutOfFuel /\
     (bpf.Run (magicsockFilterV4 discoMagic1 discoMagic2) pkt
      = bpf.Returned 8 0xFFFFFFFF \/
      bpf.Run (magicsockFilterV4 discoMagic1 discoMagic2) pkt
      = bpf.Returned 9 0 \/
      (endsAtLoadFault (magicsockFilterV4 discoMagic1 discoMagic2)
         (bpf.Run (magicsockFilterV4 discoMagic1 discoMagic2) pkt) /\
       bpf.verdict (bpf.Run (magicsockFilterV4 discoMagic1 discoMagic2) pkt)
       = Some 0))) /\
    (bpf.Run (magicsockFilterV6 discoMagic1 discoMagic2) pkt <> bpf.OutOfFuel /\
     (bpf.Run (magicsockFilterV6 discoMagic1 discoMagic2) pkt
      = bpf.Returned 4 0xFFFFFFFF \/
      bpf.Run (magicsockFilterV6 discoMagic1 discoMagic2) pkt
      = bpf.Returned 5 0 \/
      (endsAtLoadFault (magicsockFilterV6 discoMagic1 discoMagic2)
         (bpf.Run (magicsockFilterV6 discoMagic1 discoMagic2) pkt) /\
       bpf.verdict (bpf.Run (magicsockFilterV6 discoMagic1 discoMagic2) pkt)
       = Some 0))).
Proof.
  split; [apply jumpsWellFormed_sound; reflexivity|].
  split; [apply jumpsWellFormed_sound; reflexivity|].
  intros pkt. split; (split; [apply Run_terminates|]).
  - destruct (V4_ends discoMagic1 discoMagic2 pkt) as [H|[H|H]]; auto.
    right. right. split; [exact H|].
    destruct H as (i & ins & -> & _). reflexivity.
  - destruct (V6_ends discoMagic1 discoMagic2 pkt) as [H|[H|H]]; auto.
    right. right. split; [exact H|].
    destruct H as (i & ins & -> & _). reflexivity.
Qed.

(** C7 as stated fails: on a UDP datagram with a two-byte payload the
    IPv6 program does not end at a return instruction; its first load
    is out of bounds. *)
Lemma short_datagram_ends_at_a_load :
  ~ endsAtReturn (magicsockFilterV6 testMagic1 testMagic2)
      (bpf.Run (magicsockFilterV6 testMagic1 testMagic2) sampleShortDatagram).
Proof.
  rewrite V6_short_datagram. intros (i & v & H & _). discriminate.
Qed.

(** ** The receive loop *)

Lemma dispatches_app (l1 l2 : list Event) :
  dispatches (l1 ++ l2) = dispatches l1 ++ dispatches l2.
Proof.
  induction l1 as [|e l1 IH]; [reflexivity|].
  destruct e; cbn [app dispatches]; rewrite IH; reflexivity.
Qed.

Lemma portAt_slice (b : list byte) (off v : Z) :
  portAt b off = Some v ->
  exists s, slice b off (off + 2) = Some s /\ Uint16 s = Some v.
Proof.
  unfold portAt. destruct (slice b off (off + 2)) as [s|]; [eauto|discriminate].
Qed.

Lemma portAt_in_bounds (b : list byte) (off : Z) :
  0 <= off -> off + 2 <= len b -> exists v, portAt b off = Some v.
Proof.
  intros H0 H1. unfold portAt.
  destruct (proj2 (slice_Some_iff b off (off + 2))) as [s Hs]; [lia|].
  rewrite Hs. pose proof (slice_length _ _ _ _ Hs) as Hl.
  destruct (len_2 s) as (b0 & b1 & ->); [lia|].
  rewrite Uint16_value. eauto.
Qed.

(** Once the read succeeded with at least a UDP header, the pass is the
    zero-port log followed by the steps from the port lookup on. *)
Lemma receiveDisco_iter_after_header
  (isIPV6 : bool) (w : World) (a : Arrival) (rest : list Arrival) (dstPort : Z) :
  incoming w = a :: rest ->
  err a = None ->
  8 <= n a ->
  portAt (buf a) 2 = Some dstPort ->
  receiveDisco_iter isIPV6 w =
  receiveDisco_accept isIPV6 a dstPort
    (if dstPort =? 0
     then add_events [EvLogf "[unexpected] disco raw: received packet for port 0"]
                     (set_incoming rest w)
     else set_incoming rest w).
Proof.
  intros Hin Herr Hn Hport.
  apply portAt_slice in Hport as (s & Hs & Hu). change (2 + 2) with 4 in Hs.
  unfold receiveDisco_iter, receiveDisco_accept.
  unfold bind at 1. unfold ReadFrom at 1. rewrite Hin.
  unfold bind at 1. rewrite Herr. cbn [net.errors_Is_ErrClosed ret].
  unfold bind at 1.
  replace (n a <? udpHeaderSize) with false
    by (symmetry; apply Z.ltb_ge; unfold udpHeaderSize; lia).
  cbn [when ret].
  unfold bind at 1. unfold sliceM at 1. rewrite Hs. cbn [ret].
  unfold bind at 1. unfold Uint16M at 1. rewrite Hu. cbn [ret].
  unfold bind at 1.
  destruct (dstPort =? 0); reflexivity.
Qed.

Lemma add_events_add_events (l1 l2 : list Event) (w : World) :
  add_events l2 (add_events l1 w) = add_events (l1 ++ l2) w.
Proof.
  unfold add_events. cbn. rewrite app_assoc. reflexivity.
Qed.

Lemma accept_port_unbound
  (isIPV6 : bool) (a : Arrival) (dstPort : Z) (w : World) :
  acceptPortOf isIPV6 a = 0 ->
  receiveDisco_accept isIPV6 a dstPort w =
  (inr (Done Continue),
   add_events
     [EvPort isIPV6;
      EvDlogf "[v1] disco raw: dropping packet for port %d as acceptPort=0"
              dstPort] w).
Proof.
  unfold acceptPortOf. intros Hp.
  unfold receiveDisco_accept.
  unfold bind at 1. unfold bind at 1. unfold emit at 1. cbn [ret].
  rewrite Hp. unfold bind at 1. cbn [Z.eqb when].
  unfold bind, dlogf, emit, stop.
  rewrite add_events_add_events. reflexivity.
Qed.

Lemma accept_port_differs
  (isIPV6 : bool) (a : Arrival) (dstPort : Z) (w : World) :
  acceptPortOf isIPV6 a <> 0 ->
  dstPort <> acceptPortOf isIPV6 a ->
  receiveDisco_accept isIPV6 a dstPort w =
  (inr (Done Continue),
   add_events
     [EvPort isIPV6;
      EvDlogf "[v1] disco raw: dropping packet for port %d" dstPort] w).
Proof.
  unfold acceptPortOf. intros Hp Hd.
  apply Z.eqb_neq in Hp, Hd.
  unfold receiveDisco_accept.
  unfold bind at 1. unfold bind at 1. unfold emit at 1. cbn [ret].
  unfold bind at 1. rewrite Hp. cbn [when ret].
  unfold bind at 1. rewrite Hd. cbn [negb when].
  unfold bind, dlogf, emit, stop.
  rewrite add_events_add_events. reflexivity.
Qed.

Lemma accept_source_not_an_IP
  (isIPV6 : bool) (a : Arrival) (dstPort : Z) (w : World) :
  acceptPortOf isIPV6 a <> 0 ->
  dstPort = acceptPortOf isIPV6 a ->
  netip.AddrFromSlice (net.IP (src a)) = None ->
  receiveDisco_accept isIPV6 a dstPort w =
  (inr (Done Continue),
   add_events
     [EvPort isIPV6;
      EvLogf "[unexpected] PacketConn.ReadFrom returned not-an-IP %v in from"]
     w).
Proof.
  unfold acceptPortOf. intros Hp Hd Hsrc.
  apply Z.eqb_neq in Hp. apply Z.eqb_eq in Hd.
  unfold receiveDisco_accept.
  unfold bind at 1. unfold bind at 1. unfold emit at 1. cbn [ret].
  unfold bind at 1. rewrite Hp. cbn [when ret].
  unfold bind at 1. rewrite Hd. cbn [negb when ret].
  rewrite Hsrc.
  unfold bind, logf, emit, stop.
  rewrite add_events_add_events. reflexivity.
Qed.

Lemma accept_dispatch
  (isIPV6 : bool) (a : Arrival) (dstPort : Z) (w : World)
  (srcIP : netip.Addr) (srcPort : Z) (payload : list byte) :
  acceptPortOf isIPV6 a <> 0 ->
  dstPort = acceptPortOf isIPV6 a ->
  netip.AddrFromSlice (net.IP (src a)) = Some srcIP ->
  portAt (buf a) 0 = Some srcPort ->
  slice (buf a) 8 (n a) = Some payload ->
  receiveDisco_accept isIPV6 a dstPort w =
  (inl tt,
   add_events
     [EvHandleDiscoMessage payload (netip.AddrPortFrom srcIP srcPort) key.zero]
     ((if netip.Is4 srcIP then add_metric4 1 else add_metric6 1)
        (add_events [EvPort isIPV6] w))).
Proof.
  unfold acceptPortOf. intros Hp Hd Hsrc Hsp Hpl.
  apply Z.eqb_neq in Hp. apply Z.eqb_eq in Hd.
  apply portAt_slice in Hsp as (s & Hs & Hu). change (0 + 2) with 2 in Hs.
  unfold receiveDisco_accept.
  unfold bind at 1. unfold bind at 1. unfold emit at 1. cbn [ret].
  unfold bind at 1. rewrite Hp. cbn [when ret].
  unfold bind at 1. rewrite Hd. cbn [negb when ret].
  rewrite Hsrc.
  unfold bind at 1. unfold sliceM at 1. rewrite Hs. cbn [ret].
  unfold bind at 1. unfold Uint16M at 1. rewrite Hu. cbn [ret].
  unfold bind at 1.
  change udpHeaderSize with 8.
  destruct (netip.Is4 srcIP);
    unfold bind, sliceM; rewrite Hpl; reflexivity.
Qed.

Lemma short_read_is_dropped_core
  (isIPV6 : bool) (w : World) (a : Arrival) (rest : list Arrival) :
  incoming w = a :: rest ->
  err a = None ->
  n a < 8 ->
  receiveDisco_iter isIPV6 w = (inr (Done Continue), set_incoming rest w).
Proof.
  intros Hin Herr Hn.
  unfold receiveDisco_iter.
  unfold bind at 1. unfold ReadFrom at 1. rewrite Hin.
  unfold bind at 1. rewrite Herr. cbn [net.errors_Is_ErrClosed ret].
  unfold bind at 1.
  replace (n a <? udpHeaderSize) with true
    by (symmetry; apply Z.ltb_lt; unfold udpHeaderSize; lia).
  reflexivity.
Qed.

(** C6.  A successful read of fewer than 8 bytes is dropped and the
    loop goes on: the pass ends in [continue] with the world unchanged
    but for the consumed read, so there is no handler call, no counter
    change, no port lookup and no log line, whatever the buffer
    holds. *)
Theorem short_read_is_dropped
  (isIPV6 : bool) (w : World) (a : Arrival) (rest : list Arrival) :
  incoming w = a :: rest ->
  err a = None ->
  n a < 8 ->
  receiveDisco_iter isIPV6 w = (inr (Done Continue), set_incoming rest w) /\
  events (snd (receiveDisco_iter isIPV6 w)) = events w /\
  metricRecvDiscoPacketIPv4 (snd (receiveDisco_iter isIPV6 w))
  = metricRecvDiscoPacketIPv4 w /\
  metricRecvDiscoPacketIPv6 (snd (receiveDisco_iter isIPV6 w))
  = metricRecvDiscoPacketIPv6 w.
Proof.
  intros Hin Herr Hn.
  rewrite (short_read_is_dropped_core isIPV6 w a rest Hin Herr Hn).
  repeat split; reflexivity.
Qed.

Lemma short_read_is_dropped_witness :
  receiveDisco_iter false (worldWith [arrivalOf [x13; x88; x0f] 4000 0])
  = (inr (Done Continue),
     set_incoming [] (worldWith [arrivalOf [x13; x88; x0f] 4000 0])) /\
  events (snd (receiveDisco_iter false
                 (worldWith [arrivalOf [x13; x88; x0f] 4000 0])))
  = events (worldWith [arrivalOf [x13; x88; x0f] 4000 0]) /\
  metricRecvDiscoPacketIPv4
    (snd (receiveDisco_iter false
            (worldWith [arrivalOf [x13; x88; x0f] 4000 0])))
  = metricRecvDiscoPacketIPv4 (worldWith [arrivalOf [x13; x88; x0f] 4000 0]) /\
  metricRecvDiscoPacketIPv6
    (snd (receiveDisco_iter false
            (worldWith [arrivalOf [x13; x88; x0f] 4000 0])))
  = metricRecvDiscoPacketIPv6 (worldWith [arrivalOf [x13; x88; x0f] 4000 0]).
Proof.
  apply (short_read_is_dropped false
           (worldWith [arrivalOf [x13; x88; x0f] 4000 0])
           (arrivalOf [x13; x88; x0f] 4000 0) []).
  - reflexivity.
  - reflexivity.
  - vm_compute. reflexivity.
Defined.

Lemma wellFormed_slices (a : Arrival) :
  wellFormedRead a -> 8 <= n a ->
  (exists d, portAt (buf a) 2 = Some d) /\
  (exists s, portAt (buf a) 0 = Some s) /\
  (exists p, slice (buf a) 8 (n a) = Some p).
Proof.
  intros [Hn Hl] H8. repeat split.
  - apply portAt_in_bounds; lia.
  - apply portAt_in_bounds; lia.
  - apply slice_Some_iff. lia.
Qed.

(** C4.  A successful read of n >= 8 bytes into the 1500-byte buffer,
    whose destination port (bytes 2-3, big-endian) is the non-zero port
    bound for the family and whose source is a valid IP address: the
    handler is called exactly once, with the buffer bytes from 8 to n,
    the source address paired with the port in bytes 0-1, and the zero
    sender key; the IPv4 counter goes up by one when the source is IPv4
    and the IPv6 counter otherwise, the other counter staying as it
    was. *)
Theorem matching_packet_is_dispatched_once
  (isIPV6 : bool) (w : World) (a : Arrival) (rest : list Arrival)
  (dstPort : Z) (srcIP : netip.Addr) :
  incoming w = a :: rest ->
  err a = None ->
  wellFormedRead a ->
  8 <= n a ->
  portAt (buf a) 2 = Some dstPort ->
  dstPort = acceptPortOf isIPV6 a ->
  dstPort <> 0 ->
  netip.AddrFromSlice (net.IP (src a)) = Some srcIP ->
  exists (srcPort : Z) (payload : list byte) (w' : World),
    portAt (buf a) 0 = Some srcPort /\
    slice (buf a) 8 (n a) = Some payload /\
    receiveDisco_iter isIPV6 w = (inl tt, w') /\
    incoming w' = rest /\
    events w' =
      events w ++
      [EvPort isIPV6;
       EvHandleDiscoMessage payload (netip.AddrPortFrom srcIP srcPort)
                            key.zero] /\
    dispatches (events w') =
      dispatches (events w) ++
      [(payload, netip.AddrPortFrom srcIP srcPort, key.zero)] /\
    metricRecvDiscoPacketIPv4 w' =
      (if netip.Is4 srcIP then int64_add (metricRecvDiscoPacketIPv4 w) 1
       else metricRecvDiscoPacketIPv4 w) /\
    metricRecvDiscoPacketIPv6 w' =
      (if netip.Is4 srcIP then metricRecvDiscoPacketIPv6 w
       else int64_add (metricRecvDiscoPacketIPv6 w) 1).
Proof.
  intros Hin Herr Hwf H8 Hd Hacc Hnz Hsrc.
  destruct (wellFormed_slices a Hwf H8) as (_ & [sp Hsp] & [pl Hpl]).
  exists sp, pl.
  rewrite (receiveDisco_iter_after_header isIPV6 w a rest dstPort Hin Herr H8 Hd).
  apply Z.eqb_neq in Hnz as Hnz'. rewrite Hnz'.
  rewrite (accept_dispatch isIPV6 a dstPort _ srcIP sp pl);
    try assumption; [|congruence].
  eexists. split; [exact Hsp|]. split; [exact Hpl|].
  split; [reflexivity|].
  destruct (netip.Is4 srcIP); cbn;
    rewrite <- app_assoc, ?dispatches_app; cbn;
    repeat split; reflexivity.
Qed.

Lemma matching_packet_is_dispatched_once_witness :
  exists (srcPort : Z) (payload : list byte) (w' : World),
    portAt (buf (arrivalOf sampleShortDatagram 4000 0)) 0 = Some srcPort /\
    slice (buf (arrivalOf sampleShortDatagram 4000 0)) 8
          (n (arrivalOf sampleShortDatagram 4000 0)) = Some payload /\
    receiveDisco_iter false (worldWith [arrivalOf sampleShortDatagram 4000 0])
    = (inl tt, w') /\
    incoming w' = [] /\
    events w' =
      events (worldWith [arrivalOf sampleShortDatagram 4000 0]) ++
      [EvPort false;
       EvHandleDiscoMessage payload
         (netip.AddrPortFrom (netip.AddrFrom4 [x7f; x00; x00; x01]) srcPort)
         key.zero] /\
    dispatches (events w') =
      dispatches (events (worldWith [arrivalOf sampleShortDatagram 4000 0])) ++
      [(payload,
        netip.AddrPortFrom (netip.AddrFrom4 [x7f; x00; x00; x01]) srcPort,
        key.zero)] /\
    metricRecvDiscoPacketIPv4 w' =
      (if netip.Is4 (netip.AddrFrom4 [x7f; x00; x00; x01])
       then int64_add
              (metricRecvDiscoPacketIPv4
                 (worldWith [arrivalOf sampleShortDatagram 4000 0])) 1
       else metricRecvDiscoPacketIPv4
              (worldWith [arrivalOf sampleShortDatagram 4000 0])) /\
    metricRecvDiscoPacketIPv6 w' =
      (if netip.Is4 (netip.AddrFrom4 [x7f; x00; x00; x01])
       then metricRecvDiscoPacketIPv6
              (worldWith [arrivalOf sampleShortDatagram 4000 0])
       else int64_add
              (metricRecvDiscoPacketIPv6
                 (worldWith [arrivalOf sampleShortDatagram 4000 0])) 1).
Proof.
  apply (matching_packet_is_dispatched_once false
           (worldWith [arrivalOf sampleShortDatagram 4000 0])
           (arrivalOf sampleShortDatagram 4000 0) [] 4000
           (netip.AddrFrom4 [x7f; x00; x00; x01])).
  - reflexivity.
  - reflexivity.
  - split; vm_compute; [split; discriminate | reflexivity].
  - vm_compute. discriminate.
  - vm_compute. reflexivity.
  - reflexivity.
  - lia.
  - reflexivity.
Defined.

(** The scenario of the specification: port 4000 bound for IPv4, a
    packet from port 5000 to port 4000 with payload AA BB. *)
Example end_to_end_scenario :
  receiveDisco_iter false (worldWith [arrivalOf sampleShortDatagram 4000 0])
  = (inl tt,
     {| incoming := [];
        metricRecvDiscoPacketIPv4 := 1;
        metricRecvDiscoPacketIPv6 := 0;
        events :=
          [EvPort false;
           EvHandleDiscoMessage [xaa; xbb]
             (netip.AddrPortFrom (netip.AddrFrom4 [x7f; x00; x00; x01]) 5000)
             key.zero] |}).
Proof. vm_compute. reflexivity. Qed.

(** A count beyond the buffer would make the payload slice panic; the
    1500-byte bound on reads is what rules it out. *)
Example oversized_count_would_panic :
  fst (receiveDisco_iter false
         (worldWith
            [{| n := 1501; buf := bufferWith sampleShortDatagram;
                src := loopback4; err := None;
                pconn4_Port := 4000; pconn6_Port := 0 |}]))
  = inr Panicked.
Proof. vm_compute. reflexivity. Qed.

Lemma receiveDisco_iter_read_error
  (isIPV6 : bool) (w : World) (a : Arrival) (rest : list Arrival)
  (e : net.error) :
  incoming w = a :: rest ->
  err a = Some e ->
  receiveDisco_iter isIPV6 w =
  (inr (Done Return),
   if net.IsErrClosed e then set_incoming rest w
   else add_events [EvLogf "disco raw reader failed: %v"]
                   (set_incoming rest w)).
Proof.
  intros Hin Herr.
  unfold receiveDisco_iter.
  unfold bind at 1. unfold ReadFrom at 1. rewrite Hin.
  unfold bind at 1. rewrite Herr. cbn [net.errors_Is_ErrClosed].
  destruct (net.IsErrClosed e); reflexivity.
Qed.

(** C8.  For every read of 0 <= n <= 1500 bytes into the 1500-byte
    buffer, whatever the bytes, the source, the error and the bound
    ports: when the packet gets past the length check the three buffer
    accesses (bytes 2-3, bytes 0-1, bytes 8 to n) are in bounds, and the
    pass ends in exactly one of three ways: the loop is left, which
    happens only on a read error; the packet is dropped and the loop
    goes on, with no handler call; or the packet is handed to the
    handler once and the loop goes on.  It never panics. *)
Theorem receive_pass_is_total
  (isIPV6 : bool) (w : World) (a : Arrival) (rest : list Arrival) :
  incoming w = a :: rest ->
  wellFormedRead a ->
  (err a = None -> 8 <= n a ->
   (exists s, slice (buf a) 2 4 = Some s) /\
   (exists s, slice (buf a) 0 2 = Some s) /\
   (exists s, slice (buf a) 8 (n a) = Some s)) /\
  exists (r : unit + Stop LoopCtl) (w' : World),
    receiveDisco_iter isIPV6 w = (r, w') /\
    incoming w' = rest /\
    iterEnd r <> IterPanic /\ iterEnd r <> IterBlocked /\
    ((r = inr (Done Return) /\ err a <> None) \/
     (r = inr (Done Continue) /\ err a = None /\
      dispatches (events w') = dispatches (events w)) \/
     (r = inl tt /\ err a = None /\
      exists d, dispatches (events w') = dispatches (events w) ++ [d])).
Proof.
  intros Hin Hwf. split.
  { intros _ H8. destruct Hwf as [Hn Hl].
    repeat split; apply slice_Some_iff; lia. }
  destruct (err a) as [e|] eqn:Herr.
  { (* read error: the loop is left *)
    rewrite (receiveDisco_iter_read_error isIPV6 w a rest e Hin Herr).
    do 2 eexists. split; [reflexivity|].
    split; [destruct (net.IsErrClosed e); reflexivity|].
    split; [discriminate|]. split; [discriminate|].
    left. split; [reflexivity|discriminate]. }
  destruct (Z.lt_ge_cases (n a) 8) as [Hshort|H8].
  { (* shorter than a UDP header *)
    rewrite (short_read_is_dropped_core isIPV6 w a rest Hin Herr Hshort).
    do 2 eexists. split; [reflexivity|]. split; [reflexivity|].
    split; [discriminate|]. split; [discriminate|].
    right. left. repeat split; reflexivity. }
  destruct (wellFormed_slices a Hwf H8) as ([d Hd] & [sp Hsp] & [pl Hpl]).
  rewrite (receiveDisco_iter_after_header isIPV6 w a rest d Hin Herr H8 Hd).
  set (w1 := if d =? 0 then _ else _).
  assert (Hinc : incoming w1 = rest) by (subst w1; destruct (d =? 0); reflexivity).
  assert (Hdis : dispatches (events w1) = dispatches (events w)).
  { subst w1. destruct (d =? 0); [|reflexivity].
    cbn [add_events events set_incoming]. rewrite dispatches_app.
    cbn. apply app_nil_r. }
  clearbody w1.
  destruct (Z.eq_dec (acceptPortOf isIPV6 a) 0) as [Hp0|Hp].
  { rewrite accept_port_unbound by assumption.
    do 2 eexists. split; [reflexivity|]. split; [exact Hinc|].
    split; [discriminate|]. split; [discriminate|].
    right. left. repeat split.
    cbn [add_events events]. rewrite dispatches_app, Hdis. cbn.
    apply app_nil_r. }
  destruct (Z.eq_dec d (acceptPortOf isIPV6 a)) as [Heq|Hne].
  2:{ rewrite accept_port_differs by assumption.
      do 2 eexists. split; [reflexivity|]. split; [exact Hinc|].
      split; [discriminate|]. split; [discriminate|].
      right. left. repeat split.
      cbn [add_events events]. rewrite dispatches_app, Hdis. cbn.
      apply app_nil_r. }
  destruct (netip.AddrFromSlice (net.IP (src a))) as [srcIP|] eqn:Hsrc.
  2:{ rewrite accept_source_not_an_IP by assumption.
      do 2 eexists. split; [reflexivity|]. split; [exact Hinc|].
      split; [discriminate|]. split; [discriminate|].
      right. left. repeat split.
      cbn [add_events events]. rewrite dispatches_app, Hdis. cbn.
      apply app_nil_r. }
  rewrite (accept_dispatch isIPV6 a d w1 srcIP sp pl) by assumption.
  do 2 eexists. split; [reflexivity|].
  split; [destruct (netip.Is4 srcIP); exact Hinc|].
  split; [discriminate|]. split; [discriminate|].
  right. right. repeat split.
  eexists.
  destruct (netip.Is4 srcIP); cbn [add_events add_metric4 add_metric6 events];
    rewrite !dispatches_app, Hdis; cbn; rewrite app_nil_r; reflexivity.
Qed.

Lemma receive_pass_is_total_witness :
  (err sampleArrival = None -> 8 <= n sampleArrival ->
   (exists s, slice (buf sampleArrival) 2 4 = Some s) /\
   (exists s, slice (buf sampleArrival) 0 2 = Some s) /\
   (exists s, slice (buf sampleArrival) 8 (n sampleArrival) = Some s)) /\
  exists (r : unit + Stop LoopCtl) (w' : World),
    receiveDisco_iter false (worldWith [sampleArrival]) = (r, w') /\
    incoming w' = [] /\
    iterEnd r <> IterPanic /\ iterEnd r <> IterBlocked /\
    ((r = inr (Done Return) /\ err sampleArrival <> None) \/
     (r = inr (Done Continue) /\ err sampleArrival = None /\
      dispatches (events w')
      = dispatches (events (worldWith [sampleArrival]))) \/
     (r = inl tt /\ err sampleArrival = None /\
      exists d, dispatches (events w')
                = dispatches (events (worldWith [sampleArrival])) ++ [d])).
Proof.
  apply (receive_pass_is_total false (worldWith [sampleArrival])
           sampleArrival []).
  - reflexivity.
  - split; vm_compute; [split; discriminate | reflexivity].
Defined.

(** C9.  In a pass over a successful read of n >= 8 bytes the zero test
    on the destination port only adds a log line: the pass is that line,
    when the port is zero, followed by the steps from the port lookup on,
    the same steps for every destination port.  For port zero the trace
    is the log line, the port lookup, and the verbose line of the port
    gate that turns the packet away. *)
Theorem zero_port_is_logged_and_processed
  (isIPV6 : bool) (w : World) (a : Arrival) (rest : list Arrival)
  (dstPort : Z) :
  incoming w = a :: rest ->
  err a = None ->
  8 <= n a ->
  portAt (buf a) 2 = Some dstPort ->
  receiveDisco_iter isIPV6 w =
    receiveDisco_accept isIPV6 a dstPort
      (if dstPort =? 0
       then add_events [portZeroLog] (set_incoming rest w)
       else set_incoming rest w) /\
  exists w' : World,
    receiveDisco_accept isIPV6 a 0
      (add_events [portZeroLog] (set_incoming rest w))
    = (inr (Done Continue), w') /\
    incoming w' = rest /\
    events w' =
      events w ++
      [portZeroLog;
       EvPort isIPV6;
       EvDlogf (if acceptPortOf isIPV6 a =? 0
                then "[v1] disco raw: dropping packet for port %d as acceptPort=0"
                else "[v1] disco raw: dropping packet for port %d")
               0].
Proof.
  intros Hin Herr H8 Hd. split.
  - apply receiveDisco_iter_after_header; assumption.
  - destruct (Z.eqb_spec (acceptPortOf isIPV6 a) 0) as [Hp0|Hp].
    + rewrite accept_port_unbound by assumption.
      eexists. split; [reflexivity|]. split; [reflexivity|].
      cbn [add_events events set_incoming]. rewrite <- app_assoc. reflexivity.
    + rewrite accept_port_differs by (assumption || congruence).
      eexists. split; [reflexivity|]. split; [reflexivity|].
      cbn [add_events events set_incoming]. rewrite <- app_assoc. reflexivity.
Qed.

Lemma zero_port_is_logged_and_processed_witness :
  receiveDisco_iter false (worldWith [samplePortZeroArrival]) =
    receiveDisco_accept false samplePortZeroArrival 0
      (if 0 =? 0
       then add_events [portZeroLog]
                       (set_incoming [] (worldWith [samplePortZeroArrival]))
       else set_incoming [] (worldWith [samplePortZeroArrival])) /\
  exists w' : World,
    receiveDisco_accept false samplePortZeroArrival 0
      (add_events [portZeroLog]
                  (set_incoming [] (worldWith [samplePortZeroArrival])))
    = (inr (Done Continue), w') /\
    incoming w' = [] /\
    events w' =
      events (worldWith [samplePortZeroArrival]) ++
      [portZeroLog;
       EvPort false;
       EvDlogf (if acceptPortOf false samplePortZeroArrival =? 0
                then "[v1] disco raw: dropping packet for port %d as acceptPort=0"
                else "[v1] disco raw: dropping packet for port %d")
               0].
Proof.
  apply (zero_port_is_logged_and_processed false
           (worldWith [samplePortZeroArrival]) samplePortZeroArrival [] 0).
  - reflexivity.
  - reflexivity.
  - vm_compute. discriminate.
  - vm_compute. reflexivity.
Defined.

Example zero_port_pass :
  receiveDisco_iter false (worldWith [samplePortZeroArrival])
  = (inr (Done Continue),
     {| incoming := [];
        metricRecvDiscoPacketIPv4 := 0;
        metricRecvDiscoPacketIPv6 := 0;
        events :=
          [portZeroLog; EvPort false;
           EvDlogf "[v1] disco raw: dropping packet for port %d" 0] |}).
Proof. vm_compute. reflexivity. Qed.

(** ** setBPF *)

Lemma setBPF_returns
  (env : Env) (filter : list RawInstruction) (w : World) :
  SyscallConnErr env = None ->
  ControlErr env = None ->
  filter <> [] ->
  @setBPF net.error env filter w =
  (inl None,
   add_events
     [EvSetsockoptAttachFilter (uint16 (Z.of_nat (List.length filter)))
                               (SetsockoptErr env)] w).
Proof.
  intros Hsc Hctl Hne. unfold setBPF. rewrite Hsc, Hctl.
  destruct filter as [|i filter]; [congruence|].
  unfold bind at 1. unfold bind at 1. unfold emit at 1. cbn [ret].
  destruct (SetsockoptErr env); reflexivity.
Qed.

(** ** The self-test loop *)

Lemma selfTest_loop_skip (fuel : nat) (w : World) (a : Arrival)
      (rest : list Arrival) :
  incoming w = a :: rest ->
  skippedRead a ->
  selfTest_loop (S fuel) w = selfTest_loop fuel (set_incoming rest w).
Proof.
  intros Hin [Herr Hskip].
  cbn [selfTest_loop]. unfold bind at 1. unfold ReadFrom at 1. rewrite Hin.
  rewrite Herr. change udpHeaderSize with 8.
  destruct (Z.ltb_spec (n a) 8) as [Hlt|Hge]; [reflexivity|].
  destruct Hskip as [Hlt|(p & Hp & Hne)]; [lia|].
  unfold bind at 1. unfold sliceM. rewrite Hp. cbn [ret].
  destruct (Equal p testDiscoPacket) eqn:E; [|reflexivity].
  apply Equal_eq in E. contradiction.
Qed.

Lemma selfTest_loop_skips (pre : list Arrival) :
  forall (fuel : nat) (w : World) (rest : list Arrival),
    incoming w = pre ++ rest ->
    Forall skippedRead pre ->
    selfTest_loop (List.length pre + fuel) w
    = selfTest_loop fuel (set_incoming rest w).
Proof.
  induction pre as [|a pre IH]; intros fuel w rest Hin Hall.
  - cbn [List.length Nat.add]. cbn [app] in Hin.
    destruct w as [inc m4 m6 ev]. cbn in Hin. subst inc. reflexivity.
  - inversion Hall as [|? ? Ha Hpre]; subst.
    cbn [List.length Nat.add].
    rewrite (selfTest_loop_skip _ w a (pre ++ rest) Hin Ha).
    rewrite (IH fuel (set_incoming (pre ++ rest) w) rest eq_refl Hpre).
    reflexivity.
Qed.

Lemma selfTest_loop_match (fuel : nat) (w : World) (a : Arrival)
      (rest : list Arrival) :
  incoming w = a :: rest ->
  matchingRead a ->
  selfTest_loop (S fuel) w = (inl tt, set_incoming rest w).
Proof.
  intros Hin [Herr Hp].
  pose proof (slice_bounds _ _ _ _ Hp) as [Hb _].
  cbn [selfTest_loop]. unfold bind at 1. unfold ReadFrom at 1. rewrite Hin.
  rewrite Herr. change udpHeaderSize with 8.
  destruct (Z.ltb_spec (n a) 8) as [Hlt|Hge]; [lia|].
  unfold bind at 1. unfold sliceM. rewrite Hp. cbn [ret].
  replace (Equal testDiscoPacket testDiscoPacket) with true
    by (symmetry; apply Equal_eq; reflexivity).
  reflexivity.
Qed.


Lemma selfTest_fuel (pre : list Arrival) (a : Arrival) (post : list Arrival) :
  S (List.length (pre ++ a :: post))
  = (List.length pre + S (S (List.length post)))%nat.
Proof. rewrite length_app. cbn [List.length]. lia. Qed.

Lemma selfTest_passes (w : World) (pre : list Arrival) (a : Arrival)
      (post : list Arrival) :
  incoming w = pre ++ a :: post ->
  Forall skippedRead pre ->
  matchingRead a ->
  selfTest w = (inl tt, set_incoming post w).
Proof.
  intros Hin Hpre Ha. unfold selfTest. rewrite Hin, selfTest_fuel.
  rewrite (selfTest_loop_skips pre _ w (a :: post) Hin Hpre).
  rewrite (selfTest_loop_match _ (set_incoming (a :: post) w) a post eq_refl Ha). reflexivity.
Qed.


(** The self-test loop hands nothing to the handler, however it ends. *)
Lemma selfTest_loop_no_dispatch :
  forall (fuel : nat) (w : World),
    dispatches (events (snd (selfTest_loop fuel w))) = dispatches (events w).
Proof.
  induction fuel as [|fuel IH]; intros w; [reflexivity|].
  cbn [selfTest_loop]. unfold bind at 1. unfold ReadFrom at 1.
  destruct (incoming w) as [|a rest] eqn:Hin; [reflexivity|].
  destruct (err a) as [e|].
  { cbn. rewrite dispatches_app. cbn. apply app_nil_r. }
  destruct (n a <? udpHeaderSize); [apply (IH (set_incoming rest w))|].
  unfold bind at 1. unfold sliceM.
  destruct (slice (buf a) udpHeaderSize (n a)) as [p|]; [|reflexivity].
  cbn [ret].
  destruct (negb (Equal p testDiscoPacket));
    [apply (IH (set_incoming rest w))|reflexivity].
Qed.

(** ** listenRawDisco *)

Lemma listenRawDisco_through_selfTest
  (discoMagic1 discoMagic2 : Z) (env : Env) (family : string) (w : World) :
  reachesSelfTest env family ->
  listenRawDisco discoMagic1 discoMagic2 env family w =
  match selfTest (add_events (setupTrace env family) w) with
  | (inl _, w') =>
      (inl pc,
       add_events [EvSetReadDeadline None; EvGoReceiveDisco (isIP6 family);
                   EvClose tc] w')
  | (inr s, w') => (inr s, add_events [EvClose tc] w')
  end.
Proof.
  intros (Hdbg & Hmark & Hfam & Hasm & Hraw & Hsc & Hctl & Hudp & Hwr).
  unfold listenRawDisco.
  unfold bind at 1. rewrite Hdbg. cbn [when ret].
  unfold bind at 1. rewrite Hmark. cbn [negb when ret].
  unfold bind at 1.
  destruct Hfam as [-> | ->].
  - change (String.eqb "ip4" "ip4") with true. cbn [ret].
    unfold Assemble. rewrite Hasm, Hraw.
    unfold bind at 1. unfold emit at 1.
    unfold bind at 1.
    rewrite setBPF_returns by (assumption || discriminate).
    rewrite Hudp.
    unfold bind at 1. unfold emit at 1.
    unfold defer. rewrite Hwr.
    unfold bind at 1. unfold emit at 1.
    unfold bind at 1. unfold emit at 1.
    rewrite !add_events_add_events.
    match goal with
    | |- context [add_events ?l w] =>
        change (add_events l w) with (add_events (setupTrace env "ip4") w)
    end.
    unfold bind at 1.
    destruct (selfTest (add_events (setupTrace env "ip4") w)) as [[u|s] w'];
      [|reflexivity].
    unfold bind, emit, ret. rewrite !add_events_add_events. reflexivity.
  - change (String.eqb "ip6" "ip4") with false.
    change (String.eqb "ip6" "ip6") with true. cbn [ret].
    unfold Assemble. rewrite Hasm, Hraw.
    unfold bind at 1. unfold emit at 1.
    unfold bind at 1.
    rewrite setBPF_returns by (assumption || discriminate).
    rewrite Hudp.
    unfold bind at 1. unfold emit at 1.
    unfold defer. rewrite Hwr.
    unfold bind at 1. unfold emit at 1.
    unfold bind at 1. unfold emit at 1.
    rewrite !add_events_add_events.
    match goal with
    | |- context [add_events ?l w] =>
        change (add_events l w) with (add_events (setupTrace env "ip6") w)
    end.
    unfold bind at 1.
    destruct (selfTest (add_events (setupTrace env "ip6") w)) as [[u|s] w'];
      [|reflexivity].
    unfold bind, emit, ret. rewrite !add_events_add_events. reflexivity.
Qed.

(** ** Computations that never dispatch *)

Section NeverDispatches.

Context {R : Type}.

Lemma nd_ret {A : Type} (a : A) : neverDispatches (@ret R A a).
Proof. intros w. reflexivity. Qed.

Lemma nd_stop {A : Type} (s : Stop R) : neverDispatches (@stop R A s).
Proof. intros w. reflexivity. Qed.

Lemma nd_emit (e : Event) :
  dispatches [e] = [] -> neverDispatches (@emit R e).
Proof.
  intros H w. cbn [emit snd add_events events].
  rewrite dispatches_app, H. apply app_nil_r.
Qed.

Lemma nd_bind {A B : Type} (m : Act R A) (f : A -> Act R B) :
  neverDispatches m -> (forall a, neverDispatches (f a)) ->
  neverDispatches (bind m f).
Proof.
  intros Hm Hf w. unfold bind. specialize (Hm w).
  destruct (m w) as [[a|s] w']; cbn [snd] in *.
  - rewrite Hf. exact Hm.
  - exact Hm.
Qed.

Lemma nd_when (c : bool) (m : Act R unit) :
  neverDispatches m -> neverDispatches (when c m).
Proof. intros H. destruct c; [exact H|apply nd_ret]. Qed.

Lemma nd_defer {A : Type} (l : list Event) (m : Act R A) :
  dispatches l = [] -> neverDispatches m ->
  neverDispatches (defer (add_events l) m).
Proof.
  intros Hl Hm w. unfold defer. specialize (Hm w).
  destruct (m w) as [r w']; cbn [snd add_events events] in *.
  rewrite dispatches_app, Hl, app_nil_r. exact Hm.
Qed.

End NeverDispatches.

Ltac nd_step :=
  lazymatch goal with
  | |- neverDispatches (ret _) => apply nd_ret
  | |- neverDispatches (stop _) => apply nd_stop
  | |- neverDispatches (emit _) => apply nd_emit; reflexivity
  | |- neverDispatches (when _ _) => apply nd_when
  | |- neverDispatches (defer _ _) => apply nd_defer; [reflexivity|]
  | |- neverDispatches (bind _ _) => apply nd_bind; [|intros]
  | |- neverDispatches (match ?x with _ => _ end) => destruct x
  end.

Lemma nd_setBPF {R : Type} (env : Env) (filter : list RawInstruction) :
  neverDispatches (@setBPF R env filter).
Proof. unfold setBPF. repeat nd_step. Qed.

Lemma nd_selfTest : neverDispatches selfTest.
Proof. intros w. apply selfTest_loop_no_dispatch. Qed.

(** Set-up as a whole never calls the handler. *)
Lemma nd_listenRawDisco
  (discoMagic1 discoMagic2 : Z) (env : Env) (family : string) :
  neverDispatches (listenRawDisco discoMagic1 discoMagic2 env family).
Proof.
  unfold listenRawDisco.
  repeat first [ apply nd_setBPF | apply nd_selfTest | nd_step ].
Qed.

(** C1 fails on the code.  With [SyscallConn] and [Control] succeeding
    and the kernel refusing the SO_ATTACH_FILTER setsockopt with EPERM,
    [setBPF] returns a nil error: the branch for a failed setsockopt
    returns [err], which is nil there, not [setErr]. *)
Theorem setBPF_refused_setsockopt_returns_nil :
  @setBPF net.error envSetsockoptRefused
     (map Raw (magicsockFilterV4 testMagic1 testMagic2)) (worldWith [])
  = (inl None,
     add_events [EvSetsockoptAttachFilter 10 (Some (net.Errno 1))]
                (worldWith [])).
Proof. reflexivity. Qed.

(** The caller then goes on as if the filter were installed: with the
    test packet arriving, set-up as a whole succeeds. *)
Example listenRawDisco_succeeds_without_filter :
  fst (listenRawDisco testMagic1 testMagic2 envSetsockoptRefused "ip4"
         (worldWith [testPacketArrival]))
  = inl pc.
Proof. vm_compute. reflexivity. Qed.

Lemma skipped_sample : skippedRead sampleArrival.
Proof.
  split; [reflexivity|]. right. exists [xaa; xbb].
  split; [vm_compute; reflexivity|discriminate].
Defined.

Lemma matching_sample : matchingRead testPacketArrival.
Proof. split; [reflexivity|vm_compute; reflexivity]. Defined.

Lemma reachesSelfTest_sample : reachesSelfTest envOK "ip4".
Proof. unfold reachesSelfTest. cbn. tauto. Defined.



(** C10.  The self-test looks at contents only.  Reads shorter than
    8 bytes and reads whose bytes after the 8-byte header are not the
    test packet are passed over without a trace; the first read whose
    bytes from offset 8 to the count read are exactly the 62-byte test
    packet, a read of 70 bytes, ends the loop in success, whatever its
    source address, its first 8 bytes and the bound ports.  The world
    after the loop differs from the one before only in the reads
    consumed.  Neither the loop nor set-up as a whole ever calls the
    handler, from any world and whatever the environment answers. *)
Theorem selfTest_accepts_by_content_only
  (discoMagic1 discoMagic2 : Z) (w : World) (pre post : list Arrival)
  (a : Arrival) :
  incoming w = pre ++ a :: post ->
  Forall skippedRead pre ->
  matchingRead a ->
  len testDiscoPacket = 62 /\
  n a = 70 /\
  selfTest w = (inl tt, set_incoming post w) /\
  events (snd (selfTest w)) = events w /\
  (forall w0 : World,
      dispatches (events (snd (selfTest w0))) = dispatches (events w0)) /\
  (forall (env : Env) (family : string) (w0 : World),
      dispatches
        (events (snd (listenRawDisco discoMagic1 discoMagic2 env family w0)))
      = dispatches (events w0)).
Proof.
  intros Hin Hpre Hmatch.
  split; [reflexivity|]. split.
  { destruct Hmatch as [_ Hp]. apply slice_length in Hp.
    change (len testDiscoPacket) with 62 in Hp. lia. }
  rewrite (selfTest_passes w pre a post Hin Hpre Hmatch).
  split; [reflexivity|]. split; [reflexivity|]. split.
  - exact nd_selfTest.
  - intros env family. apply nd_listenRawDisco.
Qed.

Lemma selfTest_accepts_by_content_only_witness :
  len testDiscoPacket = 62 /\
  n testPacketArrival = 70 /\
  selfTest (worldWith [sampleArrival; testPacketArrival; sampleArrival])
  = (inl tt,
     set_incoming [sampleArrival]
       (worldWith [sampleArrival; testPacketArrival; sampleArrival])) /\
  events (snd (selfTest
                 (worldWith [sampleArrival; testPacketArrival; sampleArrival])))
  = events (worldWith [sampleArrival; testPacketArrival; sampleArrival]) /\
  (forall w0 : World,
      dispatches (events (snd (selfTest w0))) = dispatches (events w0)) /\
  (forall (env : Env) (family : string) (w0 : World),
      dispatches
        (events (snd (listenRawDisco testMagic1 testMagic2 env family w0)))
      = dispatches (events w0)).
Proof.
  apply (selfTest_accepts_by_content_only testMagic1 testMagic2
           (worldWith [sampleArrival; testPacketArrival; sampleArrival])
           [sampleArrival] [sampleArrival] testPacketArrival).
  - reflexivity.
  - constructor; [exact skipped_sample|constructor].
  - exact matching_sample.
Defined.

(** A whole run: the self-test consumes a stray packet and the test
    packet; the receive loop then sees only what follows, dispatches
    it, and blocks waiting for more. *)
Example capture_run :
  let w := worldWith [sampleArrival; testPacketArrival; sampleArrival] in
  let '(_, w1) := listenRawDisco testMagic1 testMagic2 envOK "ip4" w in
  let '(r, w2) := receiveDisco false w1 in
  r = Blocked /\
  dispatches (events w2)
  = [([xaa; xbb],
      netip.AddrPortFrom (netip.AddrFrom4 [x7f; x00; x00; x01]) 5000,
      key.zero)] /\
  metricRecvDiscoPacketIPv4 w2 = 1 /\
  metricRecvDiscoPacketIPv6 w2 = 0.
Proof. vm_compute. repeat split; reflexivity. Qed.

(** Closing the socket ends the loop without a fault line. *)
Example clean_shutdown :
  receiveDisco true (worldWith [failedRead (net.Wrap "read" net.ErrClosed)])
  = (Done tt, worldWith []).
Proof. vm_compute. reflexivity. Qed.

(** ** The loops never run out of fuel *)

Section KeepsIncoming.

Context {R : Type}.

Lemma ki_ret {A : Type} (a : A) : keepsIncoming (@ret R A a).
Proof. intros w. reflexivity. Qed.

Lemma ki_stop {A : Type} (s : Stop R) : keepsIncoming (@stop R A s).
Proof. intros w. reflexivity. Qed.

Lemma ki_emit (e : Event) : keepsIncoming (@emit R e).
Proof. intros w. reflexivity. Qed.

Lemma ki_bind {A B : Type} (m : Act R A) (f : A -> Act R B) :
  keepsIncoming m -> (forall a, keepsIncoming (f a)) ->
  keepsIncoming (bind m f).
Proof.
  intros Hm Hf w. unfold bind. specialize (Hm w).
  destruct (m w) as [[a|s] w']; cbn [snd] in *.
  - rewrite Hf. exact Hm.
  - exact Hm.
Qed.

Lemma ki_when (c : bool) (m : Act R unit) :
  keepsIncoming m -> keepsIncoming (when c m).
Proof. intros H. destruct c; [exact H|apply ki_ret]. Qed.

Lemma ki_sliceM (b : list byte) (lo hi : Z) :
  keepsIncoming (@sliceM R b lo hi).
Proof. unfold sliceM. destruct (slice b lo hi); [apply ki_ret|apply ki_stop]. Qed.

Lemma ki_Uint16M (b : list byte) : keepsIncoming (@Uint16M R b).
Proof. unfold Uint16M. destruct (Uint16 b); [apply ki_ret|apply ki_stop]. Qed.

Lemma ki_metric4 (d : Z) :
  keepsIncoming (fun w => (@inl unit (Stop R) tt, add_metric4 d w)).
Proof. intros w. reflexivity. Qed.

Lemma ki_metric6 (d : Z) :
  keepsIncoming (fun w => (@inl unit (Stop R) tt, add_metric6 d w)).
Proof. intros w. reflexivity. Qed.

End KeepsIncoming.

Ltac ki_step :=
  lazymatch goal with
  | |- keepsIncoming (ret _) => apply ki_ret
  | |- keepsIncoming (stop _) => apply ki_stop
  | |- keepsIncoming (emit _) => apply ki_emit
  | |- keepsIncoming (logf _) => apply ki_emit
  | |- keepsIncoming (dlogf _ _) => apply ki_emit
  | |- keepsIncoming (sliceM _ _ _) => apply ki_sliceM
  | |- keepsIncoming (Uint16M _) => apply ki_Uint16M
  | |- keepsIncoming (when _ _) => apply ki_when
  | |- keepsIncoming (bind _ _) => apply ki_bind; [|intros]
  | |- keepsIncoming (fun w => (inl tt, add_metric4 _ w)) => apply ki_metric4
  | |- keepsIncoming (fun w => (inl tt, add_metric6 _ w)) => apply ki_metric6
  | |- keepsIncoming (match ?x with _ => _ end) => destruct x
  end.

(** A pass of the receive loop takes exactly the arrival it reads. *)
Lemma receiveDisco_iter_consumes
  (isIPV6 : bool) (w : World) (a : Arrival) (rest : list Arrival) :
  incoming w = a :: rest ->
  incoming (snd (receiveDisco_iter isIPV6 w)) = rest.
Proof.
  intros Hin. unfold receiveDisco_iter.
  unfold bind at 1. unfold ReadFrom at 1. rewrite Hin.
  match goal with
  | |- incoming (snd (?m (set_incoming rest w))) = rest =>
      assert (H : keepsIncoming m); [|apply (H (set_incoming rest w))]
  end.
  repeat ki_step.
Qed.

Lemma receiveDisco_iter_blocks (isIPV6 : bool) (w : World) :
  incoming w = [] ->
  receiveDisco_iter isIPV6 w = (inr Blocked, w).
Proof.
  intros Hin. unfold receiveDisco_iter.
  unfold bind at 1. unfold ReadFrom at 1. rewrite Hin. reflexivity.
Qed.

Lemma receiveDisco_loop_enough_fuel (isIPV6 : bool) :
  forall (fuel : nat) (w : World),
    (List.length (incoming w) < fuel)%nat ->
    fst (receiveDisco_loop fuel isIPV6 w) <> Exhausted.
Proof.
  induction fuel as [|fuel IH]; intros w Hfuel; [lia|].
  cbn [receiveDisco_loop].
  destruct (incoming w) as [|a rest] eqn:Hin.
  - rewrite (receiveDisco_iter_blocks isIPV6 w Hin). cbn. discriminate.
  - pose proof (receiveDisco_iter_consumes isIPV6 w a rest Hin) as Hc.
    destruct (receiveDisco_iter isIPV6 w) as [r w']. cbn [snd] in Hc.
    destruct (iterEnd r); try (cbn; discriminate).
    apply IH. rewrite Hc. cbn [List.length] in Hfuel. lia.
Qed.

(** [receiveDisco] always comes to an end on a finite sequence of
    reads: it leaves the loop, or waits for a read that does not
    come. *)
Lemma receiveDisco_total (isIPV6 : bool) (w : World) :
  fst (receiveDisco isIPV6 w) <> Exhausted.
Proof. apply receiveDisco_loop_enough_fuel. lia. Qed.

Lemma selfTest_loop_enough_fuel :
  forall (fuel : nat) (w : World),
    (List.length (incoming w) < fuel)%nat ->
    fst (selfTest_loop fuel w) <> inr Exhausted.
Proof.
  induction fuel as [|fuel IH]; intros w Hfuel; [lia|].
  cbn [selfTest_loop]. unfold bind at 1. unfold ReadFrom at 1.
  destruct (incoming w) as [|a rest] eqn:Hin; [cbn; discriminate|].
  cbn [List.length] in Hfuel.
  assert (Hrec : fst (selfTest_loop fuel (set_incoming rest w))
                 <> inr Exhausted) by (apply IH; cbn; lia).
  destruct (err a); [cbn; discriminate|].
  destruct (n a <? udpHeaderSize); [exact Hrec|].
  unfold bind at 1. unfold sliceM.
  destruct (slice (buf a) udpHeaderSize (n a)); [|cbn; discriminate].
  cbn [ret]. destruct (negb (Equal l testDiscoPacket));
    [exact Hrec|cbn; discriminate].
Qed.

Lemma selfTest_total (w : World) : fst (selfTest w) <> inr Exhausted.
Proof. apply selfTest_loop_enough_fuel. lia. Qed.

(** ** Set-up: every path *)

Lemma setBPF_fails {R : Type}
  (env : Env) (filter : list RawInstruction) (w : World) (e : net.error) :
  installError env = Some e ->
  filter <> [] ->
  @setBPF R env filter w = (inl (Some e), w).
Proof.
  unfold installError, setBPF. intros He Hne.
  destruct (SyscallConnErr env) as [e0|]; [injection He as ->; reflexivity|].
  destruct filter as [|i filter]; [congruence|].
  rewrite He. reflexivity.
Qed.

(** Past the two switches and the family selection. *)
Ltac enter_setup Hdbg Hmark Hfam :=
  unfold listenRawDisco;
  unfold bind at 1; rewrite Hdbg; cbn [when ret];
  unfold bind at 1; rewrite Hmark; cbn [negb when ret];
  unfold bind at 1;
  destruct Hfam as [-> | ->];
  [ change (String.eqb "ip4" "ip4") with true
  | change (String.eqb "ip6" "ip4") with false;
    change (String.eqb "ip6" "ip6") with true ];
  cbn [ret]; unfold Assemble.

Section SetupPaths.

Variables discoMagic1 discoMagic2 : Z.
Variable env : Env.
Variable family : string.
Variable w : World.

Lemma path_disabled :
  debugDisableRawDisco env = true ->
  listenRawDisco discoMagic1 discoMagic2 env family w =
  (inr (Done (net.New "raw disco listening disabled by debug flag")), w).
Proof.
  intros H. unfold listenRawDisco. unfold bind at 1. rewrite H. reflexivity.
Qed.

Lemma path_no_socket_mark :
  debugDisableRawDisco env = false ->
  UseSocketMark env = false ->
  listenRawDisco discoMagic1 discoMagic2 env family w =
  (inr (Done (net.New "raw disco listening disabled, SO_MARK unavailable")),
   w).
Proof.
  intros Hd Hm. unfold listenRawDisco.
  unfold bind at 1. rewrite Hd. cbn [when ret].
  unfold bind at 1. rewrite Hm. reflexivity.
Qed.

Lemma path_unsupported_family :
  debugDisableRawDisco env = false ->
  UseSocketMark env = true ->
  family <> "ip4"%string -> family <> "ip6"%string ->
  listenRawDisco discoMagic1 discoMagic2 env family w =
  (inr (Done (net.Errorf "unsupported address family %q" family)), w).
Proof.
  intros Hd Hm H4 H6. apply String.eqb_neq in H4, H6.
  unfold listenRawDisco.
  unfold bind at 1. rewrite Hd. cbn [when ret].
  unfold bind at 1. rewrite Hm. cbn [negb when ret].
  unfold bind at 1. rewrite H4, H6. reflexivity.
Qed.

Hypothesis Hdbg : debugDisableRawDisco env = false.
Hypothesis Hmark : UseSocketMark env = true.
Hypothesis Hfam : family = "ip4"%string \/ family = "ip6"%string.

Lemma path_assemble_fails (e : net.error) :
  AssembleErr env = Some e ->
  listenRawDisco discoMagic1 discoMagic2 env family w =
  (inr (Done (net.Wrap "assembling filter" e)), w).
Proof.
  intros Hasm. enter_setup Hdbg Hmark Hfam; rewrite Hasm; reflexivity.
Qed.

Hypothesis Hasm : AssembleErr env = None.

Lemma path_raw_socket_fails (e : net.error) :
  ListenPacketRawErr env = Some e ->
  listenRawDisco discoMagic1 discoMagic2 env family w =
  (inr (Done (net.Wrap "creating packet conn" e)), w).
Proof.
  intros Hraw. enter_setup Hdbg Hmark Hfam; rewrite Hasm, Hraw; reflexivity.
Qed.

Hypothesis Hraw : ListenPacketRawErr env = None.

Lemma path_install_fails (e : net.error) :
  installError env = Some e ->
  listenRawDisco discoMagic1 discoMagic2 env family w =
  (inr (Done (net.Wrap "installing BPF filter" e)),
   add_events (firstn 1 (setupTrace env family) ++ [EvClose pc]) w).
Proof.
  intros Hinst.
  enter_setup Hdbg Hmark Hfam; rewrite Hasm, Hraw;
    unfold bind at 1; unfold emit at 1;
    unfold bind at 1;
    rewrite (setBPF_fails env _ _ e Hinst) by discriminate;
    unfold bind, emit, stop;
    rewrite add_events_add_events; reflexivity.
Qed.

Hypothesis Hsc : SyscallConnErr env = None.
Hypothesis Hctl : ControlErr env = None.

Lemma path_test_socket_fails (e : net.error) :
  ListenPacketUDPErr env = Some e ->
  listenRawDisco discoMagic1 discoMagic2 env family w =
  (inr (Done (net.Wrap "creating disco test socket" e)),
   add_events (firstn 2 (setupTrace env family) ++ [EvClose pc]) w).
Proof.
  intros Hudp.
  enter_setup Hdbg Hmark Hfam; rewrite Hasm, Hraw;
    unfold bind at 1; unfold emit at 1;
    unfold bind at 1;
    rewrite setBPF_returns by (assumption || discriminate);
    rewrite Hudp;
    unfold bind, emit, stop;
    rewrite !add_events_add_events; reflexivity.
Qed.

Hypothesis Hudp : ListenPacketUDPErr env = None.

Lemma path_test_write_fails (e : net.error) :
  WriteToErr env = Some e ->
  listenRawDisco discoMagic1 discoMagic2 env family w =
  (inr (Done (net.Wrap "writing disco test packet" e)),
   add_events (firstn 3 (setupTrace env family) ++ [EvClose pc; EvClose tc])
              w).
Proof.
  intros Hwr.
  enter_setup Hdbg Hmark Hfam; rewrite Hasm, Hraw;
    unfold bind at 1; unfold emit at 1;
    unfold bind at 1;
    rewrite setBPF_returns by (assumption || discriminate);
    rewrite Hudp;
    unfold bind at 1; unfold emit at 1;
    unfold defer; rewrite Hwr;
    unfold bind, emit, stop;
    rewrite !add_events_add_events; reflexivity.
Qed.

End SetupPaths.

(** Every environment and family falls in one of five cases. *)
Lemma setup_cases (env : Env) (family : string) :
  failsEarly env family \/
  (opensRawSocket env family /\ exists e, installError env = Some e) \/
  (opensRawSocket env family /\ installError env = None /\
   exists e, ListenPacketUDPErr env = Some e) \/
  (opensRawSocket env family /\ installError env = None /\
   ListenPacketUDPErr env = None /\ exists e, WriteToErr env = Some e) \/
  reachesSelfTest env family.
Proof.
  unfold failsEarly, opensRawSocket, reachesSelfTest, installError.
  destruct (debugDisableRawDisco env); [auto|].
  destruct (UseSocketMark env); [|auto].
  destruct (String.eqb_spec family "ip4") as [H4|H4];
    destruct (String.eqb_spec family "ip6") as [H6|H6];
    try (left; right; right; left; split; assumption);
    (destruct (AssembleErr env);
     [left; do 3 right; left; congruence|]);
    (destruct (ListenPacketRawErr env);
     [left; do 4 right; congruence|]);
    (destruct (SyscallConnErr env);
     [right; left; split; [tauto|eauto]|]);
    (destruct (ControlErr env);
     [right; left; split; [tauto|eauto]|]);
    (destruct (ListenPacketUDPErr env);
     [right; right; left; split; [tauto|split; eauto]|]);
    (destruct (WriteToErr env);
     [do 3 right; left; split; [tauto|repeat split; eauto]|]);
    do 4 right; tauto.
Qed.

Lemma installError_None (env : Env) :
  installError env = None ->
  SyscallConnErr env = None /\ ControlErr env = None.
Proof.
  unfold installError. destruct (SyscallConnErr env); [discriminate|auto].
Qed.

(** The self-test loop writes to the trace only when a read fails: then
    it closes the raw socket. *)
Lemma selfTest_loop_trace :
  forall (fuel : nat) (w : World) (r : unit + Stop net.error) (w' : World),
    selfTest_loop fuel w = (r, w') ->
    (exists e, r = inr (Done e) /\ events w' = events w ++ [EvClose pc]) \/
    ((forall e, r <> inr (Done e)) /\ events w' = events w).
Proof.
  induction fuel as [|fuel IH]; intros w r w' H.
  { injection H as <- <-. right. split; [discriminate|reflexivity]. }
  cbn [selfTest_loop] in H. unfold bind at 1 in H. unfold ReadFrom at 1 in H.
  destruct (incoming w) as [|a rest].
  { injection H as <- <-. right. split; [discriminate|reflexivity]. }
  destruct (err a) as [e|].
  { injection H as <- <-. left. eexists. split; reflexivity. }
  destruct (n a <? udpHeaderSize);
    [exact (IH (set_incoming rest w) r w' H)|].
  unfold bind at 1 in H. unfold sliceM in H.
  destruct (slice (buf a) udpHeaderSize (n a)) as [p|];
    [|injection H as <- <-; right; split; [discriminate|reflexivity]].
  cbn [ret] in H. destruct (negb (Equal p testDiscoPacket));
    [exact (IH (set_incoming rest w) r w' H)|].
  injection H as <- <-. right. split; [discriminate|reflexivity].
Qed.

(** With reads as the 1500-byte buffer allows them, the self-test loop
    does not panic. *)
Lemma selfTest_loop_no_panic :
  forall (fuel : nat) (w : World),
    Forall wellFormedRead (incoming w) ->
    fst (selfTest_loop fuel w) <> inr Panicked.
Proof.
  induction fuel as [|fuel IH]; intros w Hwf; [cbn; discriminate|].
  cbn [selfTest_loop]. unfold bind at 1. unfold ReadFrom at 1.
  destruct (incoming w) as [|a rest]; [cbn; discriminate|].
  inversion Hwf as [|? ? [Hn Hl] Hrest]; subst.
  destruct (err a) as [e|]; [cbn; discriminate|].
  change udpHeaderSize with 8.
  destruct (Z.ltb_spec (n a) 8) as [Hlt|Hge];
    [apply (IH (set_incoming rest w)); exact Hrest|].
  unfold bind at 1. unfold sliceM.
  destruct (proj2 (slice_Some_iff (buf a) 8 (n a))) as [p Hp]; [lia|].
  rewrite Hp. cbn [ret].
  destruct (negb (Equal p testDiscoPacket));
    [apply (IH (set_incoming rest w)); exact Hrest|cbn; discriminate].
Qed.

Lemma setup_fails_early_core
  (discoMagic1 discoMagic2 : Z) (env : Env) (family : string) (w : World) :
  failsEarly env family ->
  exists e : net.error,
    listenRawDisco discoMagic1 discoMagic2 env family w = (inr (Done e), w).
Proof.
  intros Hearly.
  destruct (debugDisableRawDisco env) eqn:Hd;
    [eexists; apply path_disabled; assumption|].
  destruct (UseSocketMark env) eqn:Hm;
    [|eexists; apply path_no_socket_mark; assumption].
  destruct (String.eqb_spec family "ip4") as [H4|H4].
  - destruct (AssembleErr env) as [e|] eqn:Ha;
      [eexists; apply path_assemble_fails; eauto|].
    destruct (ListenPacketRawErr env) as [e|] eqn:Hr;
      [eexists; apply path_raw_socket_fails; eauto|].
    unfold failsEarly in Hearly. rewrite Hd, Hm, Ha, Hr in Hearly.
    intuition congruence.
  - destruct (String.eqb_spec family "ip6") as [H6|H6];
      [|eexists; apply path_unsupported_family; assumption].
    destruct (AssembleErr env) as [e|] eqn:Ha;
      [eexists; apply path_assemble_fails; eauto|].
    destruct (ListenPacketRawErr env) as [e|] eqn:Hr;
      [eexists; apply path_raw_socket_fails; eauto|].
    unfold failsEarly in Hearly. rewrite Hd, Hm, Ha, Hr in Hearly.
    intuition congruence.
Qed.

(** X1.  When raw disco is switched off by the debug knob, when socket
    marks are unavailable, when the family is neither "ip4" nor "ip6",
    when the filter does not assemble, or when the raw socket cannot be
    opened, [listenRawDisco] returns an error and has done nothing: no
    socket was opened, nothing was sent, no read was taken. *)
Theorem setup_fails_before_any_socket
  (discoMagic1 discoMagic2 : Z) (env : Env) (family : string) (w : World) :
  failsEarly env family ->
  exists e : net.error,
    listenRawDisco discoMagic1 discoMagic2 env family w = (inr (Done e), w).
Proof.
  apply setup_fails_early_core.
Qed.

Lemma setup_fails_before_any_socket_witness :
  exists e : net.error,
    listenRawDisco testMagic1 testMagic2 envDisabled "ip4"
      (worldWith [testPacketArrival])
    = (inr (Done e), worldWith [testPacketArrival]).
Proof.
  apply (setup_fails_before_any_socket testMagic1 testMagic2 envDisabled
           "ip4" (worldWith [testPacketArrival])).
  left. reflexivity.
Defined.

(** X2.  With the raw socket open, a failure of [SyscallConn] or of
    [Control] makes [listenRawDisco] return that error wrapped as
    "installing BPF filter", after closing the raw socket.  The
    setsockopt was not attempted, the test socket was not opened, no
    read was taken and no receive loop started. *)
Theorem install_failure_closes_raw_socket
  (discoMagic1 discoMagic2 : Z) (env : Env) (family : string) (w : World)
  (e : net.error) :
  opensRawSocket env family ->
  installError env = Some e ->
  exists (w' : World) (delta : list Event),
    listenRawDisco discoMagic1 discoMagic2 env family w
    = (inr (Done (net.Wrap "installing BPF filter" e)), w') /\
    incoming w' = incoming w /\
    events w' = events w ++ delta /\
    pcOpened delta = true /\ pcClosed delta = true /\
    tcOpened delta = false /\ attachAttempted delta = false /\
    existsb isGo delta = false.
Proof.
  intros (Hd & Hm & Hfam & Ha & Hr) Hinst.
  rewrite (path_install_fails discoMagic1 discoMagic2 env family w
             Hd Hm Hfam Ha Hr e Hinst).
  do 2 eexists. split; [reflexivity|]. split; [reflexivity|].
  split; [reflexivity|].
  destruct Hfam as [-> | ->]; repeat split; reflexivity.
Qed.

Lemma install_failure_closes_raw_socket_witness :
  exists (w' : World) (delta : list Event),
    listenRawDisco testMagic1 testMagic2 envControlFails "ip6"
      (worldWith [testPacketArrival])
    = (inr (Done (net.Wrap "installing BPF filter" (net.Errno 9))), w') /\
    incoming w' = incoming (worldWith [testPacketArrival]) /\
    events w' = events (worldWith [testPacketArrival]) ++ delta /\
    pcOpened delta = true /\ pcClosed delta = true /\
    tcOpened delta = false /\ attachAttempted delta = false /\
    existsb isGo delta = false.
Proof.
  apply (install_failure_closes_raw_socket testMagic1 testMagic2
           envControlFails "ip6" (worldWith [testPacketArrival])
           (net.Errno 9)).
  - unfold opensRawSocket. cbn. tauto.
  - reflexivity.
Defined.

(** X3.  With the filter step passed, a failure to open the test socket
    makes [listenRawDisco] return that error wrapped as "creating disco
    test socket", after closing the raw socket; no read was taken and
    no receive loop started. *)
Theorem test_socket_failure_closes_raw_socket
  (discoMagic1 discoMagic2 : Z) (env : Env) (family : string) (w : World)
  (e : net.error) :
  opensRawSocket env family ->
  installError env = None ->
  ListenPacketUDPErr env = Some e ->
  exists (w' : World) (delta : list Event),
    listenRawDisco discoMagic1 discoMagic2 env family w
    = (inr (Done (net.Wrap "creating disco test socket" e)), w') /\
    incoming w' = incoming w /\
    events w' = events w ++ delta /\
    pcOpened delta = true /\ pcClosed delta = true /\
    attachAttempted delta = true /\ tcOpened delta = false /\
    existsb isGo delta = false.
Proof.
  intros (Hd & Hm & Hfam & Ha & Hr) Hinst Hudp.
  apply installError_None in Hinst as [Hsc Hctl].
  rewrite (path_test_socket_fails discoMagic1 discoMagic2 env family w
             Hd Hm Hfam Ha Hr Hsc Hctl e Hudp).
  do 2 eexists. split; [reflexivity|]. split; [reflexivity|].
  split; [reflexivity|].
  destruct Hfam as [-> | ->]; repeat split; reflexivity.
Qed.

Lemma test_socket_failure_closes_raw_socket_witness :
  exists (w' : World) (delta : list Event),
    listenRawDisco testMagic1 testMagic2 envTestSocketFails "ip4"
      (worldWith [testPacketArrival])
    = (inr (Done (net.Wrap "creating disco test socket" (net.Errno 24))), w') /\
    incoming w' = incoming (worldWith [testPacketArrival]) /\
    events w' = events (worldWith [testPacketArrival]) ++ delta /\
    pcOpened delta = true /\ pcClosed delta = true /\
    attachAttempted delta = true /\ tcOpened delta = false /\
    existsb isGo delta = false.
Proof.
  apply (test_socket_failure_closes_raw_socket testMagic1 testMagic2
           envTestSocketFails "ip4" (worldWith [testPacketArrival])
           (net.Errno 24)).
  - unfold opensRawSocket. cbn. tauto.
  - reflexivity.
  - reflexivity.
Defined.

(** X4.  With both sockets open, a failure to send the test packet
    makes [listenRawDisco] return that error wrapped as "writing disco
    test packet", after closing the raw socket and, on leaving, the test
    socket; no read deadline was set, no read was taken and no receive
    loop started. *)
Theorem test_write_failure_closes_both_sockets
  (discoMagic1 discoMagic2 : Z) (env : Env) (family : string) (w : World)
  (e : net.error) :
  opensRawSocket env family ->
  installError env = None ->
  ListenPacketUDPErr env = None ->
  WriteToErr env = Some e ->
  exists (w' : World) (delta : list Event),
    listenRawDisco discoMagic1 discoMagic2 env family w
    = (inr (Done (net.Wrap "writing disco test packet" e)), w') /\
    incoming w' = incoming w /\
    events w' = events w ++ delta /\
    pcOpened delta = true /\ pcClosed delta = true /\
    tcOpened delta = true /\ tcClosed delta = true /\
    pcDeadline None delta = None /\
    existsb isGo delta = false.
Proof.
  intros (Hd & Hm & Hfam & Ha & Hr) Hinst Hudp Hwr.
  apply installError_None in Hinst as [Hsc Hctl].
  rewrite (path_test_write_fails discoMagic1 discoMagic2 env family w
             Hd Hm Hfam Ha Hr Hsc Hctl Hudp e Hwr).
  do 2 eexists. split; [reflexivity|]. split; [reflexivity|].
  split; [reflexivity|].
  destruct Hfam as [-> | ->]; repeat split; reflexivity.
Qed.

Lemma test_write_failure_closes_both_sockets_witness :
  exists (w' : World) (delta : list Event),
    listenRawDisco testMagic1 testMagic2 envWriteFails "ip6"
      (worldWith [testPacketArrival])
    = (inr (Done (net.Wrap "writing disco test packet" (net.Errno 101))), w') /\
    incoming w' = incoming (worldWith [testPacketArrival]) /\
    events w' = events (worldWith [testPacketArrival]) ++ delta /\
    pcOpened delta = true /\ pcClosed delta = true /\
    tcOpened delta = true /\ tcClosed delta = true /\
    pcDeadline None delta = None /\
    existsb isGo delta = false.
Proof.
  apply (test_write_failure_closes_both_sockets testMagic1 testMagic2
           envWriteFails "ip6" (worldWith [testPacketArrival])
           (net.Errno 101)).
  - unfold opensRawSocket. cbn. tauto.
  - reflexivity.
  - reflexivity.
  - reflexivity.
Defined.

(** Facts about a concrete trace. *)
Ltac trace_facts :=
  unfold releasedOnFailure, startedOnSuccess;
  repeat split; intros; try reflexivity;
  match goal with
  | H : _ = true |- _ => cbv in H; discriminate H
  end.

Lemma reachesSelfTest_family (env : Env) (family : string) :
  reachesSelfTest env family ->
  family = "ip4"%string \/ family = "ip6"%string.
Proof. intros (_ & _ & H & _). exact H. Qed.

(** X5.  Whatever the environment answers and whatever arrives:
    when [listenRawDisco] returns an error, every socket it opened has
    been closed and no receive loop was started; when it returns the
    handle, the raw socket is open with its read deadline cleared, the
    test socket is closed, and the receive loop was started once. *)
Theorem setup_releases_or_starts
  (discoMagic1 discoMagic2 : Z) (env : Env) (family : string) (w : World) :
  exists delta : list Event,
    events (snd (listenRawDisco discoMagic1 discoMagic2 env family w))
    = events w ++ delta /\
    match fst (listenRawDisco discoMagic1 discoMagic2 env family w) with
    | inl _ => startedOnSuccess delta
    | inr (Done _) => releasedOnFailure delta
    | inr _ => True
    end.
Proof.
  destruct (setup_cases env family)
    as [Hearly
       |[[Hopen [e Hinst]]
       |[(Hopen & Hinst & e & Hudp)
       |[(Hopen & Hinst & Hudp & e & Hwr)
       |Hreach]]]].
  - destruct (setup_fails_early_core discoMagic1 discoMagic2 env family w
                Hearly) as [e ->].
    exists []. split; [cbn; rewrite app_nil_r; reflexivity|].
    cbn [fst]. trace_facts.
  - destruct Hopen as (Hd & Hm & Hfam & Ha & Hr).
    rewrite (path_install_fails discoMagic1 discoMagic2 env family w
               Hd Hm Hfam Ha Hr e Hinst).
    eexists. split; [reflexivity|]. cbn [fst].
    destruct Hfam as [-> | ->]; trace_facts.
  - destruct Hopen as (Hd & Hm & Hfam & Ha & Hr).
    apply installError_None in Hinst as [Hsc Hctl].
    rewrite (path_test_socket_fails discoMagic1 discoMagic2 env family w
               Hd Hm Hfam Ha Hr Hsc Hctl e Hudp).
    eexists. split; [reflexivity|]. cbn [fst].
    destruct Hfam as [-> | ->]; trace_facts.
  - destruct Hopen as (Hd & Hm & Hfam & Ha & Hr).
    apply installError_None in Hinst as [Hsc Hctl].
    rewrite (path_test_write_fails discoMagic1 discoMagic2 env family w
               Hd Hm Hfam Ha Hr Hsc Hctl Hudp e Hwr).
    eexists. split; [reflexivity|]. cbn [fst].
    destruct Hfam as [-> | ->]; trace_facts.
  - rewrite (listenRawDisco_through_selfTest _ _ env family w Hreach).
    pose proof (reachesSelfTest_family env family Hreach) as Hfam.
    unfold selfTest.
    destruct (selfTest_loop _ (add_events (setupTrace env family) w))
      as [r w'] eqn:Hst.
    apply selfTest_loop_trace in Hst.
    destruct Hst as [(e & -> & Hev)|[Hnot Hev]].
    + exists (setupTrace env family ++ [EvClose pc; EvClose tc]).
      split.
      { cbn [snd add_events events] in *. rewrite Hev.
        rewrite <- !app_assoc. reflexivity. }
      cbn [fst]. destruct Hfam as [-> | ->]; trace_facts.
    + destruct r as [u|s].
      * exists (setupTrace env family ++
                [EvSetReadDeadline None; EvGoReceiveDisco (isIP6 family);
                 EvClose tc]).
        split.
        { cbn [snd add_events events] in *. rewrite Hev.
          rewrite <- !app_assoc. reflexivity. }
        cbn [fst]. destruct Hfam as [-> | ->]; trace_facts.
      * exists (setupTrace env family ++ [EvClose tc]).
        split.
        { cbn [snd add_events events] in *. rewrite Hev.
          rewrite <- !app_assoc. reflexivity. }
        cbn [fst]. destruct s; [exfalso; eapply Hnot; reflexivity| | |];
          exact I.
Qed.

(** X6.  With reads as the 1500-byte buffer allows them, set-up never
    panics and never runs the model out of fuel: it returns the handle,
    returns an error, or waits for a read. *)
Theorem setup_never_panics
  (discoMagic1 discoMagic2 : Z) (env : Env) (family : string) (w : World) :
  Forall wellFormedRead (incoming w) ->
  fst (listenRawDisco discoMagic1 discoMagic2 env family w) <> inr Panicked /\
  fst (listenRawDisco discoMagic1 discoMagic2 env family w) <> inr Exhausted.
Proof.
  intros Hwf.
  destruct (setup_cases env family)
    as [Hearly
       |[[Hopen [e Hinst]]
       |[(Hopen & Hinst & e & Hudp)
       |[(Hopen & Hinst & Hudp & e & Hwr)
       |Hreach]]]].
  - destruct (setup_fails_early_core discoMagic1 discoMagic2 env family w
                Hearly) as [e ->].
    split; discriminate.
  - destruct Hopen as (Hd & Hm & Hfam & Ha & Hr).
    rewrite (path_install_fails discoMagic1 discoMagic2 env family w
               Hd Hm Hfam Ha Hr e Hinst).
    split; discriminate.
  - destruct Hopen as (Hd & Hm & Hfam & Ha & Hr).
    apply installError_None in Hinst as [Hsc Hctl].
    rewrite (path_test_socket_fails discoMagic1 discoMagic2 env family w
               Hd Hm Hfam Ha Hr Hsc Hctl e Hudp).
    split; discriminate.
  - destruct Hopen as (Hd & Hm & Hfam & Ha & Hr).
    apply installError_None in Hinst as [Hsc Hctl].
    rewrite (path_test_write_fails discoMagic1 discoMagic2 env family w
               Hd Hm Hfam Ha Hr Hsc Hctl Hudp e Hwr).
    split; discriminate.
  - rewrite (listenRawDisco_through_selfTest _ _ env family w Hreach).
    pose proof (selfTest_loop_no_panic
                  (S (List.length (incoming (add_events (setupTrace env family) w))))
                  (add_events (setupTrace env family) w) Hwf) as Hp.
    pose proof (selfTest_total (add_events (setupTrace env family) w)) as Hx.
    unfold selfTest in *.
    destruct (selfTest_loop _ (add_events (setupTrace env family) w))
      as [[u|s] w']; cbn [fst] in *; split; congruence.
Qed.

Lemma setup_never_panics_witness :
  fst (listenRawDisco testMagic1 testMagic2 envOK "ip4"
         (worldWith [sampleArrival; testPacketArrival]))
  <> inr Panicked /\
  fst (listenRawDisco testMagic1 testMagic2 envOK "ip4"
         (worldWith [sampleArrival; testPacketArrival]))
  <> inr Exhausted.
Proof.
  apply (setup_never_panics testMagic1 testMagic2 envOK "ip4"
           (worldWith [sampleArrival; testPacketArrival])).
  repeat constructor; vm_compute; congruence.
Defined.

(** ** The receive loop: every pass and the loop as a whole *)

Lemma dispatches_add_events (l : list Event) (w : World) :
  dispatches l = [] ->
  dispatches (events (add_events l w)) = dispatches (events w).
Proof.
  intros H. cbn [add_events events]. rewrite dispatches_app, H.
  apply app_nil_r.
Qed.

Lemma bump_app (l1 l2 : list (list byte * netip.AddrPort * key.NodePublic))
      (m : Z) :
  bump (countV4 (l1 ++ l2)) m = bump (countV4 l2) (bump (countV4 l1) m) /\
  bump (countV6 (l1 ++ l2)) m = bump (countV6 l2) (bump (countV6 l1) m).
Proof.
  unfold bump, countV4, countV6.
  rewrite !filter_app, !length_app.
  split; rewrite Nat.add_comm; apply Nat.iter_add.
Qed.

(** A pass over a successful read: it always goes on to the next read,
    and it calls the handler exactly for an accepted packet, bumping the
    counter of the source's family. *)
Lemma pass_on_successful_read
  (isIPV6 : bool) (w : World) (a : Arrival) (rest : list Arrival) :
  incoming w = a :: rest ->
  err a = None ->
  wellFormedRead a ->
  exists (r : unit + Stop LoopCtl) (w' : World),
    receiveDisco_iter isIPV6 w = (r, w') /\
    iterEnd r = NextIteration /\
    incoming w' = rest /\
    dispatches (events w') =
      dispatches (events w) ++ olist (accepted isIPV6 a) /\
    metricRecvDiscoPacketIPv4 w' =
      bump (countV4 (olist (accepted isIPV6 a))) (metricRecvDiscoPacketIPv4 w) /\
    metricRecvDiscoPacketIPv6 w' =
      bump (countV6 (olist (accepted isIPV6 a))) (metricRecvDiscoPacketIPv6 w).
Proof.
  intros Hin Herr Hwf. unfold accepted.
  destruct (Z.ltb_spec (n a) 8) as [Hshort|H8].
  { rewrite (short_read_is_dropped_core isIPV6 w a rest Hin Herr Hshort).
    do 2 eexists. split; [reflexivity|]. cbn.
    rewrite app_nil_r. repeat split; reflexivity. }
  destruct (wellFormed_slices a Hwf H8) as ([d Hd] & [sp Hsp] & [pl Hpl]).
  rewrite (receiveDisco_iter_after_header isIPV6 w a rest d Hin Herr H8 Hd).
  rewrite Hd, Hsp, Hpl.
  set (w1 := if d =? 0 then _ else _).
  assert (Hinc : incoming w1 = rest)
    by (subst w1; destruct (d =? 0); reflexivity).
  assert (Hdis : dispatches (events w1) = dispatches (events w)).
  { subst w1. destruct (d =? 0); [|reflexivity].
    rewrite dispatches_add_events by reflexivity. reflexivity. }
  assert (Hm4 : metricRecvDiscoPacketIPv4 w1 = metricRecvDiscoPacketIPv4 w)
    by (subst w1; destruct (d =? 0); reflexivity).
  assert (Hm6 : metricRecvDiscoPacketIPv6 w1 = metricRecvDiscoPacketIPv6 w)
    by (subst w1; destruct (d =? 0); reflexivity).
  clearbody w1.
  destruct (Z.eqb_spec (acceptPortOf isIPV6 a) 0) as [Hp0|Hp].
  { rewrite accept_port_unbound by assumption.
    do 2 eexists. split; [reflexivity|]. split; [reflexivity|].
    split; [exact Hinc|].
    destruct (netip.AddrFromSlice (net.IP (src a))); cbn [orb olist];
      rewrite dispatches_add_events, Hdis, app_nil_r by reflexivity;
      cbn; auto. }
  destruct (Z.eqb_spec d (acceptPortOf isIPV6 a)) as [Heq|Hne].
  2:{ rewrite accept_port_differs by assumption.
      do 2 eexists. split; [reflexivity|]. split; [reflexivity|].
      split; [exact Hinc|].
      destruct (netip.AddrFromSlice (net.IP (src a))); cbn [orb negb olist];
        rewrite dispatches_add_events, Hdis, app_nil_r by reflexivity;
        cbn; auto. }
  destruct (netip.AddrFromSlice (net.IP (src a))) as [srcIP|] eqn:Hsrc.
  2:{ rewrite accept_source_not_an_IP by assumption.
      do 2 eexists. split; [reflexivity|]. split; [reflexivity|].
      split; [exact Hinc|].
      cbn [olist].
      rewrite dispatches_add_events, Hdis, app_nil_r by reflexivity.
      cbn; auto. }
  rewrite (accept_dispatch isIPV6 a d w1 srcIP sp pl) by assumption.
  do 2 eexists. split; [reflexivity|]. split; [reflexivity|].
  cbn [orb negb olist].
  unfold countV4, countV6, isV4Dispatch. cbn [filter fst snd netip.Addr_].
  destruct (netip.Is4 srcIP);
    cbn [add_events add_metric4 add_metric6 events incoming negb
         metricRecvDiscoPacketIPv4 metricRecvDiscoPacketIPv6
         List.length bump Nat.iter];
    rewrite !dispatches_app, Hdis; cbn [dispatches app];
    rewrite app_nil_r; unfold bump; cbn [Nat.iter];
    repeat split; try congruence; rewrite ?Hm4, ?Hm6; reflexivity.
Qed.

(** The loop over a sequence of reads. *)
Lemma receiveDisco_loop_spec (isIPV6 : bool) :
  forall (l : list Arrival) (fuel : nat) (w : World),
    incoming w = l ->
    Forall wellFormedRead l ->
    (List.length l < fuel)%nat ->
    exists w' : World,
      receiveDisco_loop fuel isIPV6 w =
        (match readsAfterError l with
         | Some _ => Done tt
         | None => Blocked
         end, w') /\
      incoming w' = match readsAfterError l with
                    | Some remaining => remaining
                    | None => []
                    end /\
      dispatches (events w') =
        dispatches (events w) ++ expectedDispatches isIPV6 l /\
      metricRecvDiscoPacketIPv4 w' =
        bump (countV4 (expectedDispatches isIPV6 l))
             (metricRecvDiscoPacketIPv4 w) /\
      metricRecvDiscoPacketIPv6 w' =
        bump (countV6 (expectedDispatches isIPV6 l))
             (metricRecvDiscoPacketIPv6 w).
Proof.
  induction l as [|a l IH]; intros fuel w Hin Hwf Hfuel;
    (destruct fuel as [|fuel]; [cbn in Hfuel; lia|]);
    cbn [receiveDisco_loop].
  - rewrite (receiveDisco_iter_blocks isIPV6 w Hin). cbn [iterEnd].
    exists w. unfold expectedDispatches. cbn.
    rewrite app_nil_r. auto.
  - inversion Hwf as [|? ? Ha Hl]; subst.
    unfold expectedDispatches. cbn [readsAfterError readsBeforeError].
    destruct (err a) as [e|] eqn:Herr.
    + rewrite (receiveDisco_iter_read_error isIPV6 w a l e Hin Herr).
      cbn [iterEnd flat_map]. eexists. split; [reflexivity|].
      destruct (net.IsErrClosed e); cbn;
        rewrite ?dispatches_app; cbn; rewrite ?app_nil_r; auto.
    + destruct (pass_on_successful_read isIPV6 w a l Hin Herr Ha)
        as (r & w1 & -> & -> & Hinc & Hdis & Hm4 & Hm6).
      destruct (IH fuel w1 Hinc Hl ltac:(cbn in Hfuel; lia))
        as (w' & -> & Hinc' & Hdis' & Hm4' & Hm6').
      exists w'. split; [reflexivity|]. split; [exact Hinc'|].
      cbn [flat_map].
      destruct (bump_app (olist (accepted isIPV6 a))
                  (flat_map (fun a0 => olist (accepted isIPV6 a0))
                            (readsBeforeError l))
                  (metricRecvDiscoPacketIPv4 w)) as [B4 _].
      destruct (bump_app (olist (accepted isIPV6 a))
                  (flat_map (fun a0 => olist (accepted isIPV6 a0))
                            (readsBeforeError l))
                  (metricRecvDiscoPacketIPv6 w)) as [_ B6].
      rewrite B4, B6.
      unfold expectedDispatches in *.
      rewrite Hdis', Hdis, Hm4', Hm4, Hm6', Hm6, <- app_assoc. auto.
Qed.

(** A slice that ends within the first [k] bytes only sees those. *)
Lemma slice_firstn (b : list byte) (k : nat) (lo hi : Z) :
  hi <= Z.of_nat k ->
  slice (firstn k b) lo hi = slice b lo hi.
Proof.
  intros Hk. unfold slice, len. rewrite length_firstn.
  destruct (Z.leb_spec 0 lo); cbn [andb]; [|reflexivity].
  destruct (Z.leb_spec lo hi); cbn [andb]; [|reflexivity].
  destruct (Z.leb_spec hi (Z.of_nat (List.length b))) as [Hb|Hb].
  - replace (hi <=? Z.of_nat (Nat.min k (List.length b))) with true
      by (symmetry; apply Z.leb_le; lia).
    f_equal. rewrite skipn_firstn_comm, firstn_firstn.
    f_equal. lia.
  - replace (hi <=? Z.of_nat (Nat.min k (List.length b))) with false
      by (symmetry; apply Z.leb_gt; lia).
    reflexivity.
Qed.

Lemma sameUpToCount_slices (a1 a2 : Arrival) (lo hi : Z) :
  sameUpToCount a1 a2 -> 0 <= n a1 -> hi <= n a1 ->
  slice (buf a1) lo hi = slice (buf a2) lo hi.
Proof.
  intros (Hn & _ & _ & _ & _ & Hb) H0 Hhi.
  rewrite <- (slice_firstn (buf a1) (Z.to_nat (n a1))) by lia.
  rewrite <- (slice_firstn (buf a2) (Z.to_nat (n a2))) by lia.
  rewrite Hb. reflexivity.
Qed.

(** X7.  A failed read ends the receive loop at once, whatever count and
    bytes came with it: later reads are not taken, the handler is not
    called and the counters stay.  When the error is, or wraps,
    [net.ErrClosed] nothing is logged; any other error is logged
    once. *)
Theorem read_error_stops_the_loop
  (isIPV6 : bool) (w : World) (a : Arrival) (rest : list Arrival)
  (e : net.error) :
  incoming w = a :: rest ->
  err a = Some e ->
  exists w' : World,
    receiveDisco isIPV6 w = (Done tt, w') /\
    incoming w' = rest /\
    events w' =
      events w ++ (if net.IsErrClosed e then []
                   else [EvLogf "disco raw reader failed: %v"]) /\
    metricRecvDiscoPacketIPv4 w' = metricRecvDiscoPacketIPv4 w /\
    metricRecvDiscoPacketIPv6 w' = metricRecvDiscoPacketIPv6 w.
Proof.
  intros Hin Herr. unfold receiveDisco. cbn [receiveDisco_loop].
  rewrite (receiveDisco_iter_read_error isIPV6 w a rest e Hin Herr).
  cbn [iterEnd]. eexists. split; [reflexivity|].
  destruct (net.IsErrClosed e); cbn; rewrite ?app_nil_r; auto.
Qed.

Lemma read_error_stops_the_loop_witness :
  exists w' : World,
    receiveDisco false (worldWith [closedRead; sampleArrival])
    = (Done tt, w') /\
    incoming w' = [sampleArrival] /\
    events w' =
      events (worldWith [closedRead; sampleArrival]) ++
      (if net.IsErrClosed (net.Wrap "read ip4 0.0.0.0" net.ErrClosed)
       then [] else [EvLogf "disco raw reader failed: %v"]) /\
    metricRecvDiscoPacketIPv4 w'
    = metricRecvDiscoPacketIPv4 (worldWith [closedRead; sampleArrival]) /\
    metricRecvDiscoPacketIPv6 w'
    = metricRecvDiscoPacketIPv6 (worldWith [closedRead; sampleArrival]).
Proof.
  apply (read_error_stops_the_loop false
           (worldWith [closedRead; sampleArrival]) closedRead
           [sampleArrival] (net.Wrap "read ip4 0.0.0.0" net.ErrClosed)).
  - reflexivity.
  - reflexivity.
Defined.

(** X8.  A successfully read packet of at least 8 bytes is dropped at
    the port gate when the family's port is unbound (zero), whatever the
    packet's destination port, zero included, and when the destination
    port differs from the bound port.  The pass goes on to the next
    read with a verbose line naming the destination port; the handler
    is not called and the counters stay. *)
Theorem packet_for_another_port_is_dropped
  (isIPV6 : bool) (w : World) (a : Arrival) (rest : list Arrival)
  (dstPort : Z) :
  incoming w = a :: rest ->
  err a = None ->
  8 <= n a ->
  portAt (buf a) 2 = Some dstPort ->
  acceptPortOf isIPV6 a = 0 \/ dstPort <> acceptPortOf isIPV6 a ->
  exists w' : World,
    receiveDisco_iter isIPV6 w = (inr (Done Continue), w') /\
    incoming w' = rest /\
    events w' =
      events w ++
      (if dstPort =? 0 then [portZeroLog] else []) ++
      [EvPort isIPV6;
       EvDlogf (if acceptPortOf isIPV6 a =? 0
                then "[v1] disco raw: dropping packet for port %d as acceptPort=0"
                else "[v1] disco raw: dropping packet for port %d")
               dstPort] /\
    dispatches (events w') = dispatches (events w) /\
    metricRecvDiscoPacketIPv4 w' = metricRecvDiscoPacketIPv4 w /\
    metricRecvDiscoPacketIPv6 w' = metricRecvDiscoPacketIPv6 w.
Proof.
  intros Hin Herr H8 Hd Hgate.
  rewrite (receiveDisco_iter_after_header isIPV6 w a rest dstPort
             Hin Herr H8 Hd).
  destruct (Z.eqb_spec (acceptPortOf isIPV6 a) 0) as [Hp0|Hp].
  - rewrite accept_port_unbound by assumption.
    eexists. split; [reflexivity|].
    destruct (dstPort =? 0);
      cbn [add_events set_incoming incoming events app
           metricRecvDiscoPacketIPv4 metricRecvDiscoPacketIPv6];
      rewrite <- ?app_assoc, ?dispatches_app; cbn [dispatches app];
      rewrite ?app_nil_r; auto.
  - destruct Hgate as [Hp0|Hne]; [contradiction|].
    rewrite accept_port_differs by assumption.
    eexists. split; [reflexivity|].
    destruct (dstPort =? 0);
      cbn [add_events set_incoming incoming events app
           metricRecvDiscoPacketIPv4 metricRecvDiscoPacketIPv6];
      rewrite <- ?app_assoc, ?dispatches_app; cbn [dispatches app];
      rewrite ?app_nil_r; auto.
Qed.

Lemma packet_for_another_port_is_dropped_witness :
  exists w' : World,
    receiveDisco_iter false (worldWith [sampleForeignArrival])
    = (inr (Done Continue), w') /\
    incoming w' = [] /\
    events w' =
      events (worldWith [sampleForeignArrival]) ++
      (if 4000 =? 0 then [portZeroLog] else []) ++
      [EvPort false;
       EvDlogf (if acceptPortOf false sampleForeignArrival =? 0
                then "[v1] disco raw: dropping packet for port %d as acceptPort=0"
                else "[v1] disco raw: dropping packet for port %d")
               4000] /\
    dispatches (events w')
    = dispatches (events (worldWith [sampleForeignArrival])) /\
    metricRecvDiscoPacketIPv4 w'
    = metricRecvDiscoPacketIPv4 (worldWith [sampleForeignArrival]) /\
    metricRecvDiscoPacketIPv6 w'
    = metricRecvDiscoPacketIPv6 (worldWith [sampleForeignArrival]).
Proof.
  apply (packet_for_another_port_is_dropped false
           (worldWith [sampleForeignArrival]) sampleForeignArrival [] 4000).
  - reflexivity.
  - reflexivity.
  - vm_compute. discriminate.
  - vm_compute. reflexivity.
  - right. vm_compute. discriminate.
Defined.

(** X9.  A packet that passes the port gate but whose source the socket
    reports with a length other than 4 or 16 bytes is dropped with an
    "[unexpected]" log line: the handler is not called and neither
    counter moves. *)
Theorem packet_from_non_IP_source_is_dropped
  (isIPV6 : bool) (w : World) (a : Arrival) (rest : list Arrival)
  (dstPort : Z) :
  incoming w = a :: rest ->
  err a = None ->
  8 <= n a ->
  portAt (buf a) 2 = Some dstPort ->
  dstPort = acceptPortOf isIPV6 a ->
  dstPort <> 0 ->
  len (net.IP (src a)) <> 4 ->
  len (net.IP (src a)) <> 16 ->
  exists w' : World,
    receiveDisco_iter isIPV6 w = (inr (Done Continue), w') /\
    incoming w' = rest /\
    events w' =
      events w ++
      [EvPort isIPV6;
       EvLogf "[unexpected] PacketConn.ReadFrom returned not-an-IP %v in from"]
    /\
    metricRecvDiscoPacketIPv4 w' = metricRecvDiscoPacketIPv4 w /\
    metricRecvDiscoPacketIPv6 w' = metricRecvDiscoPacketIPv6 w.
Proof.
  intros Hin Herr H8 Hd Hacc Hnz H4 H16.
  rewrite (receiveDisco_iter_after_header isIPV6 w a rest dstPort
             Hin Herr H8 Hd).
  apply Z.eqb_neq in Hnz as Hnz'. rewrite Hnz'.
  rewrite accept_source_not_an_IP; [|congruence|assumption|].
  - eexists. split; [reflexivity|]. cbn. auto.
  - unfold netip.AddrFromSlice.
    apply Z.eqb_neq in H4, H16. rewrite H4, H16. reflexivity.
Qed.

Lemma packet_from_non_IP_source_is_dropped_witness :
  exists w' : World,
    receiveDisco_iter false (worldWith [sampleOddSourceArrival])
    = (inr (Done Continue), w') /\
    incoming w' = [] /\
    events w' =
      events (worldWith [sampleOddSourceArrival]) ++
      [EvPort false;
       EvLogf "[unexpected] PacketConn.ReadFrom returned not-an-IP %v in from"]
    /\
    metricRecvDiscoPacketIPv4 w'
    = metricRecvDiscoPacketIPv4 (worldWith [sampleOddSourceArrival]) /\
    metricRecvDiscoPacketIPv6 w'
    = metricRecvDiscoPacketIPv6 (worldWith [sampleOddSourceArrival]).
Proof.
  apply (packet_from_non_IP_source_is_dropped false
           (worldWith [sampleOddSourceArrival]) sampleOddSourceArrival []
           4000).
  - reflexivity.
  - reflexivity.
  - vm_compute. discriminate.
  - vm_compute. reflexivity.
  - reflexivity.
  - lia.
  - vm_compute. discriminate.
  - vm_compute. discriminate.
Defined.

Lemma sameUpToCount_accept
  (isIPV6 : bool) (a1 a2 : Arrival) (d : Z) (w : World) :
  sameUpToCount a1 a2 ->
  wellFormedRead a1 -> wellFormedRead a2 ->
  8 <= n a1 ->
  receiveDisco_accept isIPV6 a2 d w = receiveDisco_accept isIPV6 a1 d w.
Proof.
  intros Hsame Hwf1 Hwf2 H8.
  pose proof Hsame as (Hn & Hsrc & _ & Hp4 & Hp6 & _).
  assert (Hport : acceptPortOf isIPV6 a2 = acceptPortOf isIPV6 a1)
    by (unfold acceptPortOf; destruct isIPV6; congruence).
  assert (H8' : 8 <= n a2) by lia.
  destruct (wellFormed_slices a1 Hwf1 H8) as (_ & [sp Hsp] & [pl Hpl]).
  assert (Hsp2 : portAt (buf a2) 0 = Some sp).
  { unfold portAt in *.
    rewrite <- (sameUpToCount_slices a1 a2 0 (0 + 2) Hsame) by lia.
    exact Hsp. }
  assert (Hpl2 : slice (buf a2) 8 (n a2) = Some pl).
  { rewrite <- Hn.
    rewrite <- (sameUpToCount_slices a1 a2 8 (n a1) Hsame) by lia.
    exact Hpl. }
  destruct (Z.eq_dec (acceptPortOf isIPV6 a1) 0) as [Hp0|Hp].
  { rewrite (accept_port_unbound isIPV6 a1) by assumption.
    rewrite (accept_port_unbound isIPV6 a2) by congruence. reflexivity. }
  destruct (Z.eq_dec d (acceptPortOf isIPV6 a1)) as [Heq|Hne].
  2:{ rewrite (accept_port_differs isIPV6 a1) by assumption.
      rewrite (accept_port_differs isIPV6 a2) by congruence. reflexivity. }
  destruct (netip.AddrFromSlice (net.IP (src a1))) as [srcIP|] eqn:Hs.
  2:{ rewrite (accept_source_not_an_IP isIPV6 a1) by assumption.
      rewrite (accept_source_not_an_IP isIPV6 a2) by congruence.
      reflexivity. }
  rewrite (accept_dispatch isIPV6 a1 d w srcIP sp pl) by assumption.
  rewrite (accept_dispatch isIPV6 a2 d w srcIP sp pl) by congruence.
  reflexivity.
Qed.

(** X10.  A pass looks at the first n bytes of the buffer only: two
    reads that agree on the count, the source, the error, the bound
    ports and the first n bytes lead to the same result and the same
    world, whatever older bytes the buffer holds from n on. *)
Theorem pass_ignores_bytes_beyond_the_count
  (isIPV6 : bool) (w : World) (a1 a2 : Arrival) (rest : list Arrival) :
  incoming w = a1 :: rest ->
  sameUpToCount a1 a2 ->
  wellFormedRead a1 ->
  wellFormedRead a2 ->
  receiveDisco_iter isIPV6 (set_incoming (a2 :: rest) w)
  = receiveDisco_iter isIPV6 w.
Proof.
  intros Hin Hsame Hwf1 Hwf2.
  pose proof Hsame as (Hn & Hsrc & Herr & _).
  assert (Hin2 : incoming (set_incoming (a2 :: rest) w) = a2 :: rest)
    by reflexivity.
  destruct (err a1) as [e|] eqn:Herr1.
  { rewrite (receiveDisco_iter_read_error isIPV6 w a1 rest e Hin Herr1).
    rewrite (receiveDisco_iter_read_error isIPV6 _ a2 rest e Hin2)
      by congruence.
    reflexivity. }
  destruct (Z.lt_ge_cases (n a1) 8) as [Hshort|H8].
  { rewrite (short_read_is_dropped_core isIPV6 w a1 rest Hin Herr1 Hshort).
    rewrite (short_read_is_dropped_core isIPV6 _ a2 rest Hin2)
      by (congruence || lia).
    reflexivity. }
  destruct (wellFormed_slices a1 Hwf1 H8) as ([d Hd] & _ & _).
  assert (Hd2 : portAt (buf a2) 2 = Some d).
  { unfold portAt in *.
    rewrite <- (sameUpToCount_slices a1 a2 2 (2 + 2) Hsame) by lia.
    exact Hd. }
  rewrite (receiveDisco_iter_after_header isIPV6 w a1 rest d Hin Herr1 H8 Hd).
  rewrite (receiveDisco_iter_after_header isIPV6 _ a2 rest d Hin2)
    by (congruence || lia).
  apply sameUpToCount_accept; assumption.
Qed.

Lemma pass_ignores_bytes_beyond_the_count_witness :
  receiveDisco_iter false
    (set_incoming [sampleStaleArrival] (worldWith [sampleArrival]))
  = receiveDisco_iter false (worldWith [sampleArrival]).
Proof.
  apply (pass_ignores_bytes_beyond_the_count false
           (worldWith [sampleArrival]) sampleArrival sampleStaleArrival []).
  - reflexivity.
  - repeat split; reflexivity.
  - split; vm_compute; [split; discriminate | reflexivity].
  - split; vm_compute; [split; discriminate | reflexivity].
Defined.

Lemma count_by_family (l : list (list byte * netip.AddrPort * key.NodePublic)) :
  (countV4 l + countV6 l)%nat = List.length l.
Proof.
  unfold countV4, countV6. induction l as [|d l IH]; [reflexivity|].
  cbn [filter]. destruct (isV4Dispatch d); cbn [negb List.length]; lia.
Qed.

(** X11.  Over any sequence of reads that fit the buffer, the receive
    loop calls the handler for exactly the accepted packets among the
    reads before the first failed one, once each and in the order the
    reads came; packets after a failed read are never dispatched. *)
Theorem loop_dispatches_accepted_packets_in_order
  (isIPV6 : bool) (w : World) :
  Forall wellFormedRead (incoming w) ->
  dispatches (events (snd (receiveDisco isIPV6 w))) =
  dispatches (events w) ++ expectedDispatches isIPV6 (incoming w).
Proof.
  intros Hwf.
  destruct (receiveDisco_loop_spec isIPV6 (incoming w)
              (S (List.length (incoming w))) w eq_refl Hwf
              (Nat.lt_succ_diag_r _))
    as (w' & Hrun & _ & Hdis & _).
  unfold receiveDisco. rewrite Hrun. exact Hdis.
Qed.

Lemma loop_dispatches_accepted_packets_in_order_witness :
  dispatches
    (events (snd (receiveDisco false
                    (worldWith [sampleArrival; sampleForeignArrival;
                                sampleArrival; closedRead; sampleArrival]))))
  = dispatches
      (events (worldWith [sampleArrival; sampleForeignArrival;
                          sampleArrival; closedRead; sampleArrival])) ++
    expectedDispatches false
      (incoming (worldWith [sampleArrival; sampleForeignArrival;
                            sampleArrival; closedRead; sampleArrival])).
Proof.
  apply (loop_dispatches_accepted_packets_in_order false
           (worldWith [sampleArrival; sampleForeignArrival;
                       sampleArrival; closedRead; sampleArrival])).
  repeat constructor; vm_compute; congruence.
Defined.

(** X12.  Over any sequence of reads that fit the buffer, each handler
    call is counted once: the IPv4 counter is incremented once per
    dispatched packet with an IPv4 source and the IPv6 counter once per
    dispatched packet with any other source, and by nothing else. *)
Theorem loop_counts_every_dispatch_once
  (isIPV6 : bool) (w : World) :
  Forall wellFormedRead (incoming w) ->
  metricRecvDiscoPacketIPv4 (snd (receiveDisco isIPV6 w)) =
    bump (countV4 (expectedDispatches isIPV6 (incoming w)))
         (metricRecvDiscoPacketIPv4 w) /\
  metricRecvDiscoPacketIPv6 (snd (receiveDisco isIPV6 w)) =
    bump (countV6 (expectedDispatches isIPV6 (incoming w)))
         (metricRecvDiscoPacketIPv6 w) /\
  (countV4 (expectedDispatches isIPV6 (incoming w)) +
   countV6 (expectedDispatches isIPV6 (incoming w)))%nat
  = List.length (expectedDispatches isIPV6 (incoming w)).
Proof.
  intros Hwf.
  destruct (receiveDisco_loop_spec isIPV6 (incoming w)
              (S (List.length (incoming w))) w eq_refl Hwf
              (Nat.lt_succ_diag_r _))
    as (w' & Hrun & _ & _ & Hm4 & Hm6).
  unfold receiveDisco. rewrite Hrun. cbn [snd].
  split; [exact Hm4|]. split; [exact Hm6|].
  apply count_by_family.
Qed.

Lemma loop_counts_every_dispatch_once_witness :
  metricRecvDiscoPacketIPv4
    (snd (receiveDisco false
            (worldWith [sampleArrival; sampleForeignArrival; sampleArrival])))
  = bump (countV4 (expectedDispatches false
                     (incoming (worldWith [sampleArrival; sampleForeignArrival;
                                           sampleArrival]))))
         (metricRecvDiscoPacketIPv4
            (worldWith [sampleArrival; sampleForeignArrival; sampleArrival]))
  /\
  metricRecvDiscoPacketIPv6
    (snd (receiveDisco false
            (worldWith [sampleArrival; sampleForeignArrival; sampleArrival])))
  = bump (countV6 (expectedDispatches false
                     (incoming (worldWith [sampleArrival; sampleForeignArrival;
                                           sampleArrival]))))
         (metricRecvDiscoPacketIPv6
            (worldWith [sampleArrival; sampleForeignArrival; sampleArrival]))
  /\
  (countV4 (expectedDispatches false
              (incoming (worldWith [sampleArrival; sampleForeignArrival;
                                    sampleArrival]))) +
   countV6 (expectedDispatches false
              (incoming (worldWith [sampleArrival; sampleForeignArrival;
                                    sampleArrival]))))%nat
  = List.length
      (expectedDispatches false
         (incoming (worldWith [sampleArrival; sampleForeignArrival;
                               sampleArrival]))).
Proof.
  apply (loop_counts_every_dispatch_once false
           (worldWith [sampleArrival; sampleForeignArrival; sampleArrival])).
  repeat constructor; vm_compute; congruence.
Defined.

(** X13.  Over any sequence of reads that fit the buffer, the receive
    loop returns exactly when some read fails, leaving the reads after
    the first failed one untaken; when no read fails it takes them all
    and waits for the next.  Malformed, foreign or unexpected packets
    never end it. *)
Theorem loop_ends_only_on_a_read_error
  (isIPV6 : bool) (w : World) :
  Forall wellFormedRead (incoming w) ->
  fst (receiveDisco isIPV6 w) =
    match readsAfterError (incoming w) with
    | Some _ => Done tt
    | None => Blocked
    end /\
  incoming (snd (receiveDisco isIPV6 w)) =
    match readsAfterError (incoming w) with
    | Some remaining => remaining
    | None => []
    end.
Proof.
  intros Hwf.
  destruct (receiveDisco_loop_spec isIPV6 (incoming w)
              (S (List.length (incoming w))) w eq_refl Hwf
              (Nat.lt_succ_diag_r _))
    as (w' & Hrun & Hinc & _).
  unfold receiveDisco. rewrite Hrun. split; [reflexivity|exact Hinc].
Qed.

Lemma loop_ends_only_on_a_read_error_witness :
  fst (receiveDisco true
         (worldWith [samplePortZeroArrival; sampleOddSourceArrival;
                     timedOutRead; sampleArrival])) =
    match readsAfterError
            (incoming (worldWith [samplePortZeroArrival;
                                  sampleOddSourceArrival;
                                  timedOutRead; sampleArrival])) with
    | Some _ => Done tt
    | None => Blocked
    end /\
  incoming (snd (receiveDisco true
                   (worldWith [samplePortZeroArrival; sampleOddSourceArrival;
                               timedOutRead; sampleArrival]))) =
    match readsAfterError
            (incoming (worldWith [samplePortZeroArrival;
                                  sampleOddSourceArrival;
                                  timedOutRead; sampleArrival])) with
    | Some remaining => remaining
    | None => []
    end.
Proof.
  apply (loop_ends_only_on_a_read_error true
           (worldWith [samplePortZeroArrival; sampleOddSourceArrival;
                       timedOutRead; sampleArrival])).
  repeat constructor; vm_compute; congruence.
Defined.

Example loop_run :
  let w := worldWith [sampleArrival; sampleForeignArrival; sampleArrival;
                      closedRead; sampleArrival] in
  expectedDispatches false (incoming w)
  = [([xaa; xbb],
      netip.AddrPortFrom (netip.AddrFrom4 [x7f; x00; x00; x01]) 5000,
      key.zero);
     ([xaa; xbb],
      netip.AddrPortFrom (netip.AddrFrom4 [x7f; x00; x00; x01]) 5000,
      key.zero)] /\
  fst (receiveDisco false w) = Done tt /\
  incoming (snd (receiveDisco false w)) = [sampleArrival] /\
  metricRecvDiscoPacketIPv4 (snd (receiveDisco false w)) = 2.
Proof. vm_compute. repeat split; reflexivity. Qed.

(** ** The filters: short buffers, and the test packet *)

Lemma slice_app_r (a b : list byte) (lo hi : Z) :
  0 <= lo ->
  slice (a ++ b) (len a + lo) (len a + hi) = slice b lo hi.
Proof.
  intros Hlo. unfold slice, len. rewrite length_app.
  replace (0 <=? Z.of_nat (List.length a) + lo) with true
    by (symmetry; apply Z.leb_le; lia).
  replace (0 <=? lo) with true by (symmetry; apply Z.leb_le; lia).
  cbn [andb].
  replace (Z.of_nat (List.length a) + lo <=? Z.of_nat (List.length a) + hi)
    with (lo <=? hi)
    by (destruct (Z.leb_spec lo hi);
        [symmetry; apply Z.leb_le | symmetry; apply Z.leb_gt]; lia).
  replace (Z.of_nat (List.length a) + hi
           <=? Z.of_nat (List.length a + List.length b))
    with (hi <=? Z.of_nat (List.length b))
    by (destruct (Z.leb_spec hi (Z.of_nat (List.length b)));
        [symmetry; apply Z.leb_le | symmetry; apply Z.leb_gt]; lia).
  destruct (lo <=? hi), (hi <=? Z.of_nat (List.length b)); cbn [andb];
    try reflexivity.
  f_equal.
  replace (Z.of_nat (List.length a) + hi - (Z.of_nat (List.length a) + lo))
    with (hi - lo) by lia.
  f_equal. rewrite skipn_app.
  rewrite skipn_all2 by lia. cbn [app]. f_equal. lia.
Qed.

Lemma slice_app_l (a b : list byte) (lo hi : Z) :
  hi <= len a ->
  slice (a ++ b) lo hi = slice a lo hi.
Proof.
  intros Hhi. unfold slice, len in *. rewrite length_app.
  destruct (Z.leb_spec 0 lo); cbn [andb]; [|reflexivity].
  destruct (Z.leb_spec lo hi); cbn [andb]; [|reflexivity].
  replace (hi <=? Z.of_nat (List.length a + List.length b)) with true
    by (symmetry; apply Z.leb_le; lia).
  replace (hi <=? Z.of_nat (List.length a)) with true
    by (symmetry; apply Z.leb_le; lia).
  f_equal. rewrite skipn_app, firstn_app, length_skipn.
  replace (Z.to_nat (hi - lo) - (List.length a - Z.to_nat lo))%nat
    with 0%nat by lia.
  cbn [firstn]. apply app_nil_r.
Qed.

(** X15.  Buffers too short to hold the marker are dropped, for any
    marker constants: the IPv6 program returns zero on every buffer of
    fewer than 14 bytes, and the IPv4 program on every buffer of fewer
    than header length + 14 bytes, the empty buffer included. *)
Theorem filters_drop_short_buffers
  (discoMagic1 discoMagic2 : Z) (pkt4 pkt6 : list byte) :
  (forall hl, ipHeaderLength pkt4 = Some hl -> len pkt4 < hl + 14) ->
  len pkt6 < 14 ->
  bpf.verdict (bpf.Run (magicsockFilterV4 discoMagic1 discoMagic2) pkt4)
  = Some 0 /\
  bpf.verdict (bpf.Run (magicsockFilterV6 discoMagic1 discoMagic2) pkt6)
  = Some 0.
Proof.
  intros H4 H6. split.
  - rewrite Run_V4, loadMemShift_0.
    destruct (loadCommon_2 pkt4 6) as [[_ L0]|(s0 & f & _ & _ & _ & _ & L0)];
      rewrite L0; [reflexivity|].
    destruct (moreFragments f); [reflexivity|].
    destruct (negb (fragmentOffset f =? 0)); [reflexivity|].
    destruct (ipHeaderLength pkt4) as [hl|]; [|reflexivity].
    specialize (H4 hl eq_refl).
    destruct (loadCommon_4 pkt4 (8 + hl))
      as [[_ L1]|(s1 & v1 & _ & _ & _ & _ & L1)]; rewrite L1; [reflexivity|].
    destruct (v1 =? discoMagic1); [|reflexivity].
    destruct (loadCommon_2 pkt4 (12 + hl))
      as [[_ L2]|(s2 & v2 & Hs & _)]; [rewrite L2; reflexivity|].
    apply slice_bounds in Hs. lia.
  - rewrite Run_V6.
    destruct (loadCommon_4 pkt6 8) as [[_ L1]|(s1 & v1 & _ & _ & _ & _ & L1)];
      rewrite L1; [reflexivity|].
    destruct (v1 =? discoMagic1); [|reflexivity].
    destruct (loadCommon_2 pkt6 12) as [[_ L2]|(s2 & v2 & Hs & _)];
      [rewrite L2; reflexivity|].
    apply slice_bounds in Hs. lia.
Qed.

Lemma filters_drop_short_buffers_witness :
  bpf.verdict (bpf.Run (magicsockFilterV4 testMagic1 testMagic2)
                       (sampleIPv4Header x40 x00 ++ sampleUDPHeader))
  = Some 0 /\
  bpf.verdict (bpf.Run (magicsockFilterV6 testMagic1 testMagic2)
                       sampleShortDatagram)
  = Some 0.
Proof.
  apply (filters_drop_short_buffers testMagic1 testMagic2
           (sampleIPv4Header x40 x00 ++ sampleUDPHeader) sampleShortDatagram).
  - intros hl H. vm_compute in H. injection H as <-. vm_compute. reflexivity.
  - vm_compute. reflexivity.
Defined.

(** X14.  The self-test packet passes the filter it tests.  When the
    two magic constants are the first four and the next two bytes of
    [testDiscoPacket], the IPv6 program accepts every buffer made of
    any 8-byte UDP header, the test packet and any trailing bytes, and
    the IPv4 program accepts the same behind any unfragmented IPv4
    header whose length field gives its length, options included. *)
Theorem test_packet_passes_both_filters
  (discoMagic1 discoMagic2 : Z) (hdr udp trailer : list byte) :
  Uint32 (firstn 4 testDiscoPacket) = Some discoMagic1 ->
  Uint16 (firstn 2 (skipn 4 testDiscoPacket)) = Some discoMagic2 ->
  ipHeaderLength hdr = Some (len hdr) ->
  fragmented (hdr ++ udp ++ testDiscoPacket ++ trailer) = false ->
  len udp = 8 ->
  bpf.verdict (bpf.Run (magicsockFilterV4 discoMagic1 discoMagic2)
                       (hdr ++ udp ++ testDiscoPacket ++ trailer))
  = Some 0xFFFFFFFF /\
  bpf.verdict (bpf.Run (magicsockFilterV6 discoMagic1 discoMagic2)
                       (udp ++ testDiscoPacket ++ trailer))
  = Some 0xFFFFFFFF.
Proof.
  intros Hm1 Hm2 Hhl Hfrag Hudp.
  pose proof (Uint32_range _ _ Hm1) as R1.
  pose proof (Uint16_range _ _ Hm2) as R2.
  assert (M6 : markerAt discoMagic1 discoMagic2
                 (udp ++ testDiscoPacket ++ trailer) 8).
  { unfold markerAt. rewrite <- Hudp.
    replace (len udp + 4) with (len udp + (0 + 4)) by lia.
    replace (len udp + 6) with (len udp + (0 + 6)) by lia.
    replace (len udp) with (len udp + 0) at 1 by lia.
    rewrite !slice_app_r by lia.
    rewrite !slice_app_l by (vm_compute; discriminate).
    rewrite (PutUint32_Uint32 x54 x53 xf0 x9f discoMagic1 Hm1).
    rewrite (PutUint16_Uint16 x92 xac discoMagic2 Hm2).
    split; reflexivity. }
  split.
  - destruct (V4_verdict discoMagic1 discoMagic2 R1 R2 _ Hfrag)
      as [[_ Hv]|[Hno _]]; [exact Hv|].
    exfalso. apply Hno. exists (len hdr). split.
    + destruct hdr as [|b hdr]; [discriminate|]. exact Hhl.
    + unfold markerAt in *. destruct M6 as [M6a M6b].
      replace (len hdr + 8 + 4) with (len hdr + (8 + 4)) by lia.
      replace (len hdr + 8 + 6) with (len hdr + (8 + 6)) by lia.
      rewrite !slice_app_r by lia. split; assumption.
  - destruct (V6_verdict discoMagic1 discoMagic2 R1 R2
                (udp ++ testDiscoPacket ++ trailer))
      as [[_ Hv]|[Hno _]]; [exact Hv|contradiction].
Qed.

Lemma test_packet_passes_both_filters_witness :
  bpf.verdict (bpf.Run (magicsockFilterV4 testMagic1 testMagic2)
                       (sampleIPv4Header x40 x00 ++ sampleUDPHeader ++
                        testDiscoPacket ++ [xaa]))
  = Some 0xFFFFFFFF /\
  bpf.verdict (bpf.Run (magicsockFilterV6 testMagic1 testMagic2)
                       (sampleUDPHeader ++ testDiscoPacket ++ [xaa]))
  = Some 0xFFFFFFFF.
Proof.
  apply (test_packet_passes_both_filters testMagic1 testMagic2
           (sampleIPv4Header x40 x00) sampleUDPHeader [xaa]).
  - reflexivity.
  - reflexivity.
  - reflexivity.
  - reflexivity.
  - reflexivity.
Defined.

Lemma flag_masks (f : Z) :
  Z.land f 0x3fff = 0 <-> Z.land f 0x2000 = 0 /\ Z.land f 0x1fff = 0.
Proof.
  change 0x3fff with (Z.lor 0x2000 0x1fff).
  rewrite Z.land_lor_distr_r. apply Z.lor_eq_0_iff.
Qed.

(** X16.  The IPv4 program looks at the low 14 bits of the flags word
    only.  On a packet that carries the marker behind its header it
    returns 0xFFFFFFFF when those bits are zero and zero otherwise; the
    don't-fragment bit (0x4000) and the reserved bit (0x8000) make no
    difference. *)
Theorem V4_ignores_dont_fragment_bit
  (discoMagic1 discoMagic2 : Z) (pkt : list byte) (f : Z) :
  0 <= discoMagic1 < 2 ^ 32 ->
  0 <= discoMagic2 < 2 ^ 16 ->
  fragField pkt = Some f ->
  markerAtV4 discoMagic1 discoMagic2 pkt ->
  bpf.verdict (bpf.Run (magicsockFilterV4 discoMagic1 discoMagic2) pkt)
  = Some (if Z.land f 0x3fff =? 0 then 0xFFFFFFFF else 0).
Proof.
  intros R1 R2 Hf Hmark.
  destruct (Z.eqb_spec (Z.land f 0x3fff) 0) as [Hz|Hnz].
  - apply flag_masks in Hz as [Hmf Hoff].
    assert (Hfrag : fragmented pkt = false).
    { unfold fragmented, moreFragments, fragmentOffset.
      rewrite Hf, Hmf, Hoff. reflexivity. }
    destruct (V4_verdict discoMagic1 discoMagic2 R1 R2 pkt Hfrag)
      as [[_ Hv]|[Hno _]]; [exact Hv|contradiction].
  - rewrite Run_V4, fragField_load, Hf.
    unfold moreFragments, fragmentOffset.
    destruct (Z.eqb_spec (Z.land f 0x2000) 0) as [E1|E1]; [|reflexivity].
    destruct (Z.eqb_spec (Z.land f 0x1fff) 0) as [E2|E2]; [|reflexivity].
    exfalso. apply Hnz. apply flag_masks. auto.
Qed.

Lemma sampleV4Packet_marker : markerAtV4 testMagic1 testMagic2 sampleV4Packet.
Proof.
  exists 20. split; [reflexivity|]. split; vm_compute; reflexivity.
Defined.

Lemma V4_ignores_dont_fragment_bit_witness :
  bpf.verdict (bpf.Run (magicsockFilterV4 testMagic1 testMagic2)
                       sampleV4Packet)
  = Some (if Z.land 0x4000 0x3fff =? 0 then 0xFFFFFFFF else 0).
Proof.
  apply (V4_ignores_dont_fragment_bit testMagic1 testMagic2 sampleV4Packet
           0x4000).
  - unfold testMagic1. lia.
  - unfold testMagic2. lia.
  - reflexivity.
  - exact sampleV4Packet_marker.
Defined.

(** ** Set-up and loop together *)

(** X17.  A capture that starts: when set-up reaches the self-test and
    the test packet is read after any number of passed-over reads,
    [listenRawDisco] returns the raw socket, and the receive loop
    started for the family then hands to the handler exactly the
    accepted packets among the reads that follow the test packet, in
    order; nothing read during the self-test reaches the handler. *)
Theorem capture_dispatches_what_follows_the_self_test
  (discoMagic1 discoMagic2 : Z) (env : Env) (family : string)
  (w : World) (pre post : list Arrival) (a : Arrival) :
  reachesSelfTest env family ->
  incoming w = pre ++ a :: post ->
  Forall skippedRead pre ->
  matchingRead a ->
  Forall wellFormedRead post ->
  exists w1 : World,
    listenRawDisco discoMagic1 discoMagic2 env family w = (inl pc, w1) /\
    dispatches (events (snd (receiveDisco (isIP6 family) w1))) =
      dispatches (events w) ++ expectedDispatches (isIP6 family) post.
Proof.
  intros Hreach Hin Hpre Hmatch Hpost.
  pose proof (nd_listenRawDisco discoMagic1 discoMagic2 env family w) as Hnd.
  rewrite (listenRawDisco_through_selfTest _ _ env family w Hreach) in *.
  rewrite (selfTest_passes (add_events (setupTrace env family) w)
             pre a post Hin Hpre Hmatch) in *.
  cbn [snd] in Hnd.
  eexists. split; [reflexivity|].
  match goal with
  | |- context [receiveDisco _ ?w1] =>
      destruct (receiveDisco_loop_spec (isIP6 family) post
                  (S (List.length (incoming w1))) w1 eq_refl Hpost
                  (Nat.lt_succ_diag_r _))
        as (w' & Hrun & _ & Hdis & _);
      unfold receiveDisco; rewrite Hrun; cbn [snd]
  end.
  rewrite Hdis, Hnd. reflexivity.
Qed.

Lemma capture_dispatches_what_follows_the_self_test_witness :
  exists w1 : World,
    listenRawDisco testMagic1 testMagic2 envOK "ip4"
      (worldWith [sampleArrival; testPacketArrival; sampleArrival])
    = (inl pc, w1) /\
    dispatches (events (snd (receiveDisco (isIP6 "ip4") w1))) =
      dispatches
        (events (worldWith [sampleArrival; testPacketArrival; sampleArrival]))
      ++ expectedDispatches (isIP6 "ip4") [sampleArrival].
Proof.
  apply (capture_dispatches_what_follows_the_self_test
           testMagic1 testMagic2 envOK "ip4"
           (worldWith [sampleArrival; testPacketArrival; sampleArrival])
           [sampleArrival] [sampleArrival] testPacketArrival).
  - exact reachesSelfTest_sample.
  - reflexivity.
  - constructor; [exact skipped_sample|constructor].
  - exact matching_sample.
  - repeat constructor; vm_compute; congruence.
Defined.
